(** * NiftyMIC: the Tikhonov reconstruction solver and two registration wrappers

    A shallow embedding of
    - [src/reconstruction/solver/TikhonovSolver.py] (augmented least-squares
      assembly, TK0/TK1 operators, right-hand side, orchestration),
    - [src/Registration.py] ([resample_to_isotropic_grid]),
    - [src/py/registration/RegistrationSimpleITK.py] (registration-type
      accessors),
    followed by the properties of these programs. *)

From Stdlib Require Import ZArith QArith Qround String.
From stdpp Require Import base tactics option list strings.

Open Scope string_scope.
Open Scope list_scope.
Open Scope Z_scope.

(** ** Python exceptions and the error monad *)

Inductive exn : Type :=
| ValueError (msg : string)
| IndexError (msg : string)
| KeyError (key : string)
| NameError (name : string).

Inductive result (A : Type) : Type :=
| Ok (a : A)
| Raise (e : exn).
Arguments Ok {A} a.
Arguments Raise {A} e.

#[global] Instance result_ret : MRet result := λ A a, Ok a.
#[global] Instance result_bind : MBind result := λ A B f m,
  match m with Ok a => f a | Raise e => Raise e end.
#[global] Instance result_fmap : FMap result := λ A B f m,
  match m with Ok a => Ok (f a) | Raise e => Raise e end.

Definition is_Ok {A} (m : result A) : Prop := ∃ a, m = Ok a.

(** [for x in l: body] with the loop-carried variables as state. *)
Fixpoint for_in {A S : Type} (l : list A) (body : A → S → result S) (s : S)
  : result S :=
  match l with
  | [] => Ok s
  | a :: l' => s' ← body a s; for_in l' body s'
  end.

(** [for i in range(0, n): body] *)
Definition for_range {S : Type} (n : nat) (body : nat → S → result S) (s : S)
  : result S :=
  for_in (seq 0 n) body s.

(** [l[i]] for a non-negative index [i]. *)
Definition getitem {A : Type} (l : list A) (i : nat) : result A :=
  match l !! i with
  | Some a => Ok a
  | None => Raise (IndexError "list index out of range")
  end.

(** ** The fragment of numpy used by the solver *)

(** Scalars of the arrays (float64 in the source); only the operations the
    solver applies to them. *)
Class Float (R : Type) : Type := {
  f_zero : R;
  f_add : R → R → R;
  f_mul : R → R → R;
  f_sqrt : R → R
}.

Module np.
Section np.
Context {R : Type} `{Float R}.

(** [np.array(size)] for the size tuple of a 3-D image. *)
Definition array (size : nat * nat * nat) : list nat :=
  let '(nx, ny, nz) := size in [nx; ny; nz].

(** [a.prod()] on an array of unsigned sizes. *)
Definition prod (a : list nat) : Z :=
  foldr (λ n acc, Z.of_nat n * acc) 1 a.

(** [np.zeros(n)] *)
Definition zeros (n : Z) : result (list R) :=
  if n <? 0 then Raise (ValueError "negative dimensions are not allowed")
  else Ok (replicate (Z.to_nat n) f_zero).

(** [np.sqrt(alpha) * v] *)
Definition scale_l (a : R) (v : list R) : list R := map (f_mul a) v.

(** [v * np.sqrt(alpha)] *)
Definition scale_r (v : list R) (a : R) : list R := map (λ r, f_mul r a) v.

(** A bound of a slice [a[start:stop]]: an omitted bound is [None]; a
    negative one counts from the end; both are clipped to [0, len]. *)
Definition bound (len : Z) (default : Z) (i : option Z) : Z :=
  match i with
  | None => default
  | Some i => if i <? 0 then Z.max 0 (i + len) else Z.min i len
  end.

Definition slice_start (len : Z) (start : option Z) : Z := bound len 0 start.
Definition slice_stop (len : Z) (stop : option Z) : Z := bound len len stop.
Definition slice_len (len : Z) (start stop : option Z) : Z :=
  Z.max 0 (slice_stop len stop - slice_start len start).

(** [a[start:stop]] *)
Definition getslice (a : list R) (start stop : option Z) : list R :=
  let len := Z.of_nat (length a) in
  take (Z.to_nat (slice_len len start stop))
       (drop (Z.to_nat (slice_start len start)) a).

(** [a[start:stop] = v]: [v] must have the length of the slice, or length
    one (it is then broadcast); any other length is a [ValueError]. *)
Definition setslice (a : list R) (start stop : option Z) (v : list R)
  : result (list R) :=
  let len := Z.of_nat (length a) in
  let i := Z.to_nat (slice_start len start) in
  let n := Z.to_nat (slice_len len start stop) in
  if decide (length v = n) then Ok (take i a ++ v ++ drop (i + n) a)
  else match v with
       | [r] => Ok (take i a ++ replicate n r ++ drop (i + n) a)
       | _ => Raise (ValueError "could not broadcast input array")
       end.

(** [a + b] on 1-D arrays, with numpy's broadcasting of a length-one
    operand. *)
Definition add (a b : list R) : result (list R) :=
  if decide (length a = length b) then Ok (zip_with f_add a b)
  else match a, b with
       | [r], _ => Ok (map (f_add r) b)
       | _, [r] => Ok (map (λ x, f_add x r) a)
       | _, _ => Raise (ValueError "operands could not be broadcast together")
       end.
End np.
End np.

(** ** Images, slices and stacks (the accessors the solver uses) *)

(** The voxel grid of an image: [GetSize()], [GetSpacing()], origin and
    direction cosines. *)
Record Geometry (R : Type) : Type := {
  GetSize : nat * nat * nat;
  GetSpacing : R * R * R;
  GetOrigin : R * R * R;
  GetDirection : list R
}.
Arguments GetSize {R} _.
Arguments GetSpacing {R} _.
Arguments GetOrigin {R} _.
Arguments GetDirection {R} _.

(** An (ITK or SimpleITK) image: its grid and its voxel buffer. *)
Record Image (R : Type) : Type := {
  geometry : Geometry R;
  GetArrayFromImage : list R
}.
Arguments geometry {R} _.
Arguments GetArrayFromImage {R} _.

(** A slice: both image handles of the source ([.sitk], [.itk]) and the
    index that identifies the slice towards the acquisition operators. *)
Record Slice (R : Type) : Type := {
  slice_number : nat;
  slice_sitk : Image R;
  slice_itk : Image R
}.
Arguments slice_number {R} _.
Arguments slice_sitk {R} _.
Arguments slice_itk {R} _.

(** A stack: its own 3-D image, [get_slices()] and
    [get_number_of_slices()].  The HR volume is a stack as well. *)
Record Stack (R : Type) : Type := {
  sitk : Image R;
  itk : Image R;
  get_slices : list (Slice R);
  get_number_of_slices : nat
}.
Arguments sitk {R} _.
Arguments itk {R} _.
Arguments get_slices {R} _.
Arguments get_number_of_slices {R} _.

(** The acquisition model the solver is built on: the numerical kernels of
    the per-slice operator [A_k], its adjoint, the mask [M_k] and the
    gradient on the HR grid.  They live in [Solver.py],
    [DifferentialOperations.py] and ITK filters, which are outside the
    translated sources; the solver only composes them. *)
Class SliceOperators (R : Type) : Type := {
  (** [A_k x]: the HR vector seen as slice [k] *)
  A_k : Stack R → Slice R → list R → list R;
  (** [A_k^* y_k]: a slice vector spread back on the HR grid *)
  A_k_adj : Stack R → Slice R → list R → list R;
  (** [M_k y_k]: elementwise mask of a slice vector *)
  M_k : Slice R → list R → list R;
  (** [D x]: the three stacked forward differences *)
  grad : Stack R → list R → list R;
  (** [D^* g]: the adjoint of [grad] *)
  grad_adj : Stack R → list R → list R
}.

(** ** The state of a [TikhonovSolver] object *)

Record TikhonovSolver (R : Type) : Type := {
  _stacks : list (Stack R);
  _HR_volume : Stack R;
  _N_stacks : nat;
  _alpha_cut : R;
  _N_total_slice_voxels : Z;
  _N_voxels_HR_volume : Z;
  _differential_operations : R;
  _alpha : R;
  _iter_max : Z;
  _reg_type : string
}.
Arguments _stacks {R} _.
Arguments _HR_volume {R} _.
Arguments _N_stacks {R} _.
Arguments _alpha_cut {R} _.
Arguments _N_total_slice_voxels {R} _.
Arguments _N_voxels_HR_volume {R} _.
Arguments _differential_operations {R} _.
Arguments _alpha {R} _.
Arguments _iter_max {R} _.
Arguments _reg_type {R} _.

(** Attribute updates. *)
Definition with_itk {R} (img : Image R) (v : Stack R) : Stack R :=
  {| sitk := sitk v; itk := img; get_slices := get_slices v;
     get_number_of_slices := get_number_of_slices v |}.

Definition with_sitk {R} (img : Image R) (v : Stack R) : Stack R :=
  {| sitk := img; itk := itk v; get_slices := get_slices v;
     get_number_of_slices := get_number_of_slices v |}.

Definition with_HR_volume {R} (f : Stack R → Stack R) (s : TikhonovSolver R)
  : TikhonovSolver R :=
  {| _stacks := _stacks s; _HR_volume := f (_HR_volume s);
     _N_stacks := _N_stacks s; _alpha_cut := _alpha_cut s;
     _N_total_slice_voxels := _N_total_slice_voxels s;
     _N_voxels_HR_volume := _N_voxels_HR_volume s;
     _differential_operations := _differential_operations s;
     _alpha := _alpha s; _iter_max := _iter_max s; _reg_type := _reg_type s |}.

Definition with_reg_type {R} (reg_type : string) (s : TikhonovSolver R)
  : TikhonovSolver R :=
  {| _stacks := _stacks s; _HR_volume := _HR_volume s;
     _N_stacks := _N_stacks s; _alpha_cut := _alpha_cut s;
     _N_total_slice_voxels := _N_total_slice_voxels s;
     _N_voxels_HR_volume := _N_voxels_HR_volume s;
     _differential_operations := _differential_operations s;
     _alpha := _alpha s; _iter_max := _iter_max s; _reg_type := reg_type |}.

Definition with_alpha {R} (alpha : R) (s : TikhonovSolver R)
  : TikhonovSolver R :=
  {| _stacks := _stacks s; _HR_volume := _HR_volume s;
     _N_stacks := _N_stacks s; _alpha_cut := _alpha_cut s;
     _N_total_slice_voxels := _N_total_slice_voxels s;
     _N_voxels_HR_volume := _N_voxels_HR_volume s;
     _differential_operations := _differential_operations s;
     _alpha := alpha; _iter_max := _iter_max s; _reg_type := _reg_type s |}.

Definition with_iter_max {R} (iter_max : Z) (s : TikhonovSolver R)
  : TikhonovSolver R :=
  {| _stacks := _stacks s; _HR_volume := _HR_volume s;
     _N_stacks := _N_stacks s; _alpha_cut := _alpha_cut s;
     _N_total_slice_voxels := _N_total_slice_voxels s;
     _N_voxels_HR_volume := _N_voxels_HR_volume s;
     _differential_operations := _differential_operations s;
     _alpha := _alpha s; _iter_max := iter_max; _reg_type := _reg_type s |}.

(** ** scipy: the matrix-free operator and the least-squares iteration *)

(** [LinearOperator((M, N), matvec=..., rmatvec=...)] *)
Record LinearOperator (R : Type) : Type := {
  shape : Z * Z;
  matvec : list R → result (list R);
  rmatvec : list R → result (list R)
}.
Arguments shape {R} _.
Arguments matvec {R} _.
Arguments rmatvec {R} _.

(** Why the iteration stopped. *)
Inductive stopping_reason : Type :=
| converged_to_tolerance
| iteration_limit_reached.

(** What [lsqr] returns: [res[0]] is the iterate, followed by the
    diagnostics. *)
Record lsqr_result (R : Type) : Type := {
  res_x : list R;
  res_istop : stopping_reason;
  res_itn : Z;
  res_r1norm : R
}.
Arguments res_x {R} _.
Arguments res_istop {R} _.
Arguments res_itn {R} _.
Arguments res_r1norm {R} _.

(** The arithmetic of one Krylov step (bidiagonalisation and plane
    rotation) and the convergence test of the external solver; it sees the
    operator only through [matvec] and [rmatvec]. *)
Class KrylovMethod (R : Type) : Type := {
  krylov_state : Type;
  krylov_init : LinearOperator R → list R → result krylov_state;
  krylov_step : LinearOperator R → krylov_state → result krylov_state;
  krylov_converged : krylov_state → bool;
  krylov_x : krylov_state → list R;
  krylov_r1norm : krylov_state → R
}.

Module scipy.
Section scipy.
Context {R : Type} `{Float R} `{KrylovMethod R}.

(** [LinearOperator(shape, matvec=..., rmatvec=...)] with no [dtype]: to
    find the dtype of the operator the constructor applies [matvec] once
    to [np.zeros(shape[-1])]; an exception of that call is an exception
    of the constructor. *)
Definition new_LinearOperator (shape : Z * Z)
    (matvec rmatvec : list R → result (list R))
  : result (LinearOperator R) :=
  v ← np.zeros shape.2;
  _ ← matvec v;
  Ok {| shape := shape; matvec := matvec; rmatvec := rmatvec |}.

(** Modelled from the spec: the iterative least-squares solver
    ([scipy.sparse.linalg.lsqr], not part of the sources).  Section 4.6:
    it works purely through the two callbacks, returns the approximate
    minimiser with the iteration count, the residual norm and the
    stopping reason, and stops after at most [iter_lim] iterations even
    without convergence, returning the iterate it then has.  An exception
    of a callback propagates. *)
Fixpoint lsqr_loop (A : LinearOperator R) (fuel : nat) (itn : Z)
    (k : krylov_state) : result (lsqr_result R) :=
  match fuel with
  | O => Ok {| res_x := krylov_x k; res_istop := iteration_limit_reached;
               res_itn := itn; res_r1norm := krylov_r1norm k |}
  | S fuel' =>
      k' ← krylov_step A k;
      if krylov_converged k'
      then Ok {| res_x := krylov_x k'; res_istop := converged_to_tolerance;
                 res_itn := itn + 1; res_r1norm := krylov_r1norm k' |}
      else lsqr_loop A fuel' (itn + 1) k'
  end.

Definition lsqr (A : LinearOperator R) (b : list R) (iter_lim : Z)
  : result (lsqr_result R) :=
  k ← krylov_init A b;
  lsqr_loop A (Z.to_nat iter_lim) 0 k.
End scipy.
End scipy.

(** ** Methods that mutate the object: state, console output, exceptions *)

(** What a run prints and which attributes it assigns. *)
Inductive event (R : Type) : Type :=
| print_text (line : string)
| print_float (label : string) (r : R)
| print_int (label : string) (n : Z)
| call_lsqr (iter_lim : Z)
| assign_HR_volume_itk
| assign_HR_volume_sitk.
Arguments print_text {R} line.
Arguments print_float {R} label r.
Arguments print_int {R} label n.
Arguments call_lsqr {R} iter_lim.
Arguments assign_HR_volume_itk {R}.
Arguments assign_HR_volume_sitk {R}.

(** The object and the log of its effects. *)
Record World (R : Type) : Type := {
  self : TikhonovSolver R;
  log : list (event R)
}.
Arguments self {R} _.
Arguments log {R} _.

(** A method body: it may change the object, and an exception leaves the
    object as it is at the raise. *)
Definition Method (R A : Type) : Type := World R → World R * result A.

#[global] Instance Method_ret {R} : MRet (Method R) := λ A a w, (w, Ok a).
#[global] Instance Method_bind {R} : MBind (Method R) := λ A B f m w,
  match m w with
  | (w', Ok a) => f a w'
  | (w', Raise e) => (w', Raise e)
  end.

Definition emit {R} (e : event R) : Method R unit :=
  λ w, ({| self := self w; log := log w ++ [e] |}, Ok tt).

Definition read {R A} (f : TikhonovSolver R → A) : Method R A :=
  λ w, (w, Ok (f (self w))).

Definition lift {R A} (m : result A) : Method R A := λ w, (w, m).

(** An assignment to an attribute of the object. *)
Definition assign {R} (f : TikhonovSolver R → TikhonovSolver R)
    (e : list (event R)) : Method R unit :=
  λ w, ({| self := f (self w); log := log w ++ e |}, Ok tt).

(** ** The base class [Solver] and the helper module [SimpleITKHelper] *)

Module sitkh.
(** Modelled from the spec: [SimpleITKHelper.convert_itk_to_sitk_image]
    (not part of the sources) rewraps an ITK image as a SimpleITK image of
    the same grid and voxels. *)
Definition convert_itk_to_sitk_image {R} (image_itk : Image R) : Image R :=
  {| geometry := geometry image_itk;
     GetArrayFromImage := GetArrayFromImage image_itk |}.
End sitkh.

Module Solver.
Section Solver.
Context {R : Type} `{Float R} `{SliceOperators R}.

(** What the base-class constructor sets. *)
Record fields : Type := {
  stacks_ : list (Stack R);
  HR_volume_ : Stack R;
  N_stacks_ : nat;
  alpha_cut_ : R
}.

(** Modelled from the spec: [Solver.__init__] (the base class [Solver.py]
    is not part of the sources) keeps the stacks, the HR-volume estimate
    and the cut-off of the blurring filter, and counts the stacks. *)
Definition __init__ (stacks : list (Stack R)) (HR_volume : Stack R)
    (alpha_cut : R) : fields :=
  {| stacks_ := stacks; HR_volume_ := HR_volume;
     N_stacks_ := length stacks; alpha_cut_ := alpha_cut |}.

(** Number of voxels of a slice, [np.array(slice.sitk.GetSize()).prod()]. *)
Definition slice_voxels (slice_k : Slice R) : Z :=
  np.prod (np.array (GetSize (geometry (slice_sitk slice_k)))).

(** All slices of all stacks, in stack order and then slice order. *)
Definition all_slices (stacks : list (Stack R)) : list (Slice R) :=
  stacks ≫= get_slices.

(** Modelled from the spec: [Solver.get_itk_image_from_array_vec] (the
    base class [Solver.py] is not part of the sources) reshapes a vector
    into an image on the voxel grid of the reference image (section 4.7:
    same geometry as the input estimate). *)
Definition get_itk_image_from_array_vec (nda_vec : list R)
    (image_itk_ref : Image R) : Image R :=
  {| geometry := geometry image_itk_ref; GetArrayFromImage := nda_vec |}.

(** Modelled from the spec: [Solver.Mk] (missing with [Solver.py]) is the
    mask operator of section 4.3, an elementwise multiplication by the
    slice's 0/1 mask on the slice grid. *)
Definition Mk (image_itk : Image R) (slice_k : Slice R) : Image R :=
  {| geometry := geometry image_itk;
     GetArrayFromImage := M_k slice_k (GetArrayFromImage image_itk) |}.

(** Modelled from the spec: [Solver.MA] (missing with [Solver.py]) is the
    stacked vector [M_1 A_1 x; ...; M_K A_K x] of section 4.5. *)
Definition MA (s : TikhonovSolver R) (HR_nda_vec : list R) : list R :=
  all_slices (_stacks s) ≫=
    (λ slice_k, M_k slice_k (A_k (_HR_volume s) slice_k HR_nda_vec)).

(** The partition of the stacked vector into per-slice blocks, each of the
    voxel count of its slice. *)
Fixpoint blocks (slices : list (Slice R)) (y : list R)
  : list (Slice R * list R) :=
  match slices with
  | [] => []
  | slice_k :: rest =>
      let n := Z.to_nat (slice_voxels slice_k) in
      (slice_k, take n y) :: blocks rest (drop n y)
  end.

(** Modelled from the spec: [Solver.A_adj_M] (missing with [Solver.py]) is
    the accumulation [A_1^* M_1 y_1 + ... + A_K^* M_K y_K] of section 4.5
    over the per-slice blocks of the stacked vector, starting from zeros
    on the HR grid. *)
Definition A_adj_M (s : TikhonovSolver R) (stacked_slices_nda_vec : list R)
  : result (list R) :=
  acc ← np.zeros (_N_voxels_HR_volume s);
  for_in (blocks (all_slices (_stacks s)) stacked_slices_nda_vec)
    (λ '(slice_k, y_k) acc,
       np.add acc (A_k_adj (_HR_volume s) slice_k (M_k slice_k y_k)))
    acc.

(** Modelled from the spec: [Solver.D] (missing with [Solver.py]) is the
    stacked gradient of section 4.4. *)
Definition D (s : TikhonovSolver R) (HR_nda_vec : list R) : list R :=
  grad (_HR_volume s) HR_nda_vec.

(** Modelled from the spec: [Solver.D_adj] (missing with [Solver.py])
    applies the adjoint gradient to the regularisation block of the
    stacked vector, its last [3 N_HR] entries (section 4.5). *)
Definition D_adj (s : TikhonovSolver R) (stacked_slices_nda_vec : list R)
  : list R :=
  grad_adj (_HR_volume s)
    (np.getslice stacked_slices_nda_vec
       (Some (- (3 * _N_voxels_HR_volume s))) None).
End Solver.
End Solver.

(** ** [TikhonovSolver.py] *)

Module TikhonovSolver.
Section TikhonovSolver.
Context {R : Type} `{Float R} `{SliceOperators R} `{KrylovMethod R}.

(** The constructor.  Its loop over [range(0, self._N_stacks)] reads
    [self._stacks[i]] for every index of the list, hence visits every
    stack once, in order. *)
Definition __init__ (stacks : list (Stack R)) (HR_volume : Stack R)
    (alpha_cut alpha : R) (iter_max : Z) (reg_type : string)
  : TikhonovSolver R :=
  let base := Solver.__init__ stacks HR_volume alpha_cut in
  let N_total_slice_voxels :=
    foldl (λ N_total stack,
             let N_stack_voxels :=
               np.prod (np.array (GetSize (geometry (sitk stack)))) in
             N_total + N_stack_voxels)
          0 (take (Solver.N_stacks_ base) (Solver.stacks_ base)) in
  let N_voxels_HR_volume :=
    np.prod (np.array
      (GetSize (geometry (sitk (Solver.HR_volume_ base))))) in
  let spacing :=
    (GetSpacing (geometry (sitk (Solver.HR_volume_ base)))).1.1 in
  {| _stacks := Solver.stacks_ base; _HR_volume := Solver.HR_volume_ base;
     _N_stacks := Solver.N_stacks_ base;
     _alpha_cut := Solver.alpha_cut_ base;
     _N_total_slice_voxels := N_total_slice_voxels;
     _N_voxels_HR_volume := N_voxels_HR_volume;
     _differential_operations := spacing;
     _alpha := alpha; _iter_max := iter_max; _reg_type := reg_type |}.

Definition set_regularization_type (reg_type : string) : Method R unit :=
  if bool_decide (reg_type ∉ ["TK0"; "TK1"])
  then lift (Raise (ValueError
         "Error: regularization type can only be either 'TK0' or 'TK1'"))
  else assign (with_reg_type reg_type) [].

Definition get_regularization_type (s : TikhonovSolver R) : string :=
  _reg_type s.

Definition set_alpha (alpha : R) : Method R unit :=
  assign (with_alpha alpha) [].

Definition get_alpha (s : TikhonovSolver R) : R := _alpha s.

Definition set_iter_max (iter_max : Z) : Method R unit :=
  assign (with_iter_max iter_max) [].

Definition get_iter_max (s : TikhonovSolver R) : Z := _iter_max s.

(** The two loops of [_get_b], with the loop-carried [b] and [i_min]. *)
Definition _get_b_loop (s : TikhonovSolver R) (N_voxels : Z)
  : result (list R * Z) :=
  b ← np.zeros N_voxels;
  let i_min := 0 in
  for_range (_N_stacks s) (λ i '(b, i_min),
      stack ← getitem (_stacks s) i;
      let slices := get_slices stack in
      slice_0 ← getitem slices 0;
      let N_slice_voxels :=
        np.prod (np.array (GetSize (geometry (slice_sitk slice_0)))) in
      for_range (get_number_of_slices stack) (λ j '(b, i_min),
          let i_max := i_min + N_slice_voxels in
          slice_k ← getitem slices j;
          let slice_itk := Solver.Mk (slice_itk slice_k) slice_k in
          let slice_nda_vec := GetArrayFromImage slice_itk in
          b ← np.setslice b (Some i_min) (Some i_max) slice_nda_vec;
          let i_min := i_max in
          Ok (b, i_min))
        (b, i_min))
    (b, i_min).

Definition _get_b (s : TikhonovSolver R) (N_voxels : Z) : result (list R) :=
  fst <$> _get_b_loop s N_voxels.

Definition _A_TK0 (s : TikhonovSolver R) (HR_nda_vec : list R)
    (N_voxels : Z) (alpha : R) : result (list R) :=
  A_x ← np.zeros N_voxels;
  A_x ← np.setslice A_x (Some 0) (Some (- _N_voxels_HR_volume s))
          (Solver.MA s HR_nda_vec);
  A_x ← np.setslice A_x (Some (- _N_voxels_HR_volume s)) None
          (np.scale_l (f_sqrt alpha) HR_nda_vec);
  Ok A_x.

Definition _A_adj_TK0 (s : TikhonovSolver R)
    (stacked_slices_nda_vec : list R) (alpha : R) : result (list R) :=
  A_adj_y ← Solver.A_adj_M s stacked_slices_nda_vec;
  A_adj_y ← np.add A_adj_y
    (np.scale_r
       (np.getslice stacked_slices_nda_vec
          (Some (- _N_voxels_HR_volume s)) None)
       (f_sqrt alpha));
  Ok A_adj_y.

Definition _A_TK1 (s : TikhonovSolver R) (HR_nda_vec : list R)
    (N_voxels : Z) (alpha : R) : result (list R) :=
  A_x ← np.zeros N_voxels;
  A_x ← np.setslice A_x (Some 0) (Some (- (3 * _N_voxels_HR_volume s)))
          (Solver.MA s HR_nda_vec);
  A_x ← np.setslice A_x (Some (- (3 * _N_voxels_HR_volume s))) None
          (np.scale_l (f_sqrt alpha) (Solver.D s HR_nda_vec));
  Ok A_x.

Definition _A_adj_TK1 (s : TikhonovSolver R)
    (stacked_slices_nda_vec : list R) (alpha : R) : result (list R) :=
  A_adj_y ← Solver.A_adj_M s stacked_slices_nda_vec;
  A_adj_y ← np.add A_adj_y
    (np.scale_r (Solver.D_adj s stacked_slices_nda_vec) (f_sqrt alpha));
  Ok A_adj_y.

(** The dispatch tables [self._A] and [self._A_adj]; a key that is not in
    the dictionary is a [KeyError]. *)
Definition _A (s : TikhonovSolver R) (key : string)
  : result (list R → Z → R → result (list R)) :=
  if decide (key = "TK0") then Ok (_A_TK0 s)
  else if decide (key = "TK1") then Ok (_A_TK1 s)
  else Raise (KeyError key).

Definition _A_adj (s : TikhonovSolver R) (key : string)
  : result (list R → R → result (list R)) :=
  if decide (key = "TK0") then Ok (_A_adj_TK0 s)
  else if decide (key = "TK1") then Ok (_A_adj_TK1 s)
  else Raise (KeyError key).

(** The two closures of [run_reconstruction]. *)
Definition A_fw (s : TikhonovSolver R) (N_voxels : Z) (x : list R)
  : result (list R) :=
  op ← _A s (_reg_type s); op x N_voxels (_alpha s).

Definition A_bw (s : TikhonovSolver R) (x : list R) : result (list R) :=
  op ← _A_adj s (_reg_type s); op x (_alpha s).

(** The length of the augmented vector chosen at the start of
    [run_reconstruction]. *)
Definition N_voxels_of (s : TikhonovSolver R) : Z :=
  if bool_decide (_reg_type s ∈ ["TK0"])
  then _N_total_slice_voxels s + _N_voxels_HR_volume s
  else _N_total_slice_voxels s + 3 * _N_voxels_HR_volume s.

Definition run_reconstruction : Method R unit :=
  reg_type ← read _reg_type;
  alpha ← read _alpha;
  iter_max ← read _iter_max;
  N_voxels ←
    (if bool_decide (reg_type ∈ ["TK0"]) then
       emit (print_text "Chosen regularization type: zero-order Tikhonov");;
       emit (print_float "Regularization parameter = " alpha);;
       emit (print_int "Maximum number of iterations = " iter_max);;
       s ← read id;
       mret (_N_total_slice_voxels s + _N_voxels_HR_volume s)
     else
       emit (print_text "Chosen regularization type: first-order Tikhonov");;
       emit (print_float "Regularization parameter = " alpha);;
       emit (print_int "Maximum number of iterations = " iter_max);;
       s ← read id;
       mret (_N_total_slice_voxels s + 3 * _N_voxels_HR_volume s));
  s ← read id;
  b ← lift (_get_b s N_voxels);
  A ← lift (scipy.new_LinearOperator (N_voxels, _N_voxels_HR_volume s)
              (A_fw s N_voxels) (A_bw s));
  emit (call_lsqr (_iter_max s));;
  res ← lift (scipy.lsqr A b (_iter_max s));
  let HR_nda_vec := res_x res in
  s ← read id;
  assign (with_HR_volume
            (with_itk (Solver.get_itk_image_from_array_vec HR_nda_vec
                         (itk (_HR_volume s)))))
         [assign_HR_volume_itk];;
  s ← read id;
  assign (with_HR_volume
            (with_sitk (sitkh.convert_itk_to_sitk_image
                          (itk (_HR_volume s)))))
         [assign_HR_volume_sitk].
End TikhonovSolver.
End TikhonovSolver.

(** ** [Registration.py]: resampling to an isotropic grid *)

Module Registration.
Section Registration.
(** An in-plane slice [data[:,:,i]] of the source volume, an in-plane
    slice of the [int16] target, and the cast numpy applies when a source
    slice is stored into the target. *)
Context {T I : Type} (astype_int16 : T → I).

(** The image handed in, through the accessors the method uses.  The shape
    in the header is the shape of the data, so the volume is its in-plane
    size and the list of its slices along the third axis. *)
Record FetalImage : Type := {
  in_plane : nat * nat;
  get_zooms : Q * Q * Q;
  get_data : list T
}.

(** [header.get_data_shape()] *)
Definition get_data_shape (img : FetalImage) : nat * nat * nat :=
  ((in_plane img).1, (in_plane img).2, length (get_data img)).

(** [np.ceil(x)], on the exact quotient of the voxel sizes. *)
Definition ceil (x : Q) : Z := Qceiling x.

(** [.astype(np.uint8)] of an integral float: the C cast goes through a
    32-bit integer, of which the low byte is kept; a value outside the
    32-bit range gives 0. *)
Definition astype_uint8 (n : Z) : Z :=
  if (- 2 ^ 31 <=? n) && (n <? 2 ^ 31) then n mod 2 ^ 8 else 0.

(** The slice count before the cast. *)
Definition true_number_of_slices (shape : nat * nat * nat)
    (pixdim : Q * Q * Q) : Z :=
  let length_through_plane := (inject_Z (Z.of_nat shape.2) * pixdim.2)%Q in
  ceil (length_through_plane / pixdim.1.1)%Q.

Definition number_of_slices_target_through_plane
    (shape : nat * nat * nat) (pixdim : Q * Q * Q) : Z :=
  astype_uint8 (true_number_of_slices shape pixdim).

(** What is saved: the target buffer with its shape and voxel sizes. *)
Record Nifti1Image : Type := {
  data_shape : nat * nat * Z;
  zooms : Q * Q * Q;
  dataobj : list (option I)
}.

(** The nearest-neighbour loop: [i] walks over the source slices while
    [j] walks over the target slices; [None] is a slice left at the zeros
    of the allocation. *)
Definition nearest_neighbour (img : FetalImage) (n : Z)
    (data_target : list (option I)) : result (list (option I)) :=
  let shape := get_data_shape img in
  let pixdim := get_zooms img in
  let data := get_data img in
  snd <$>
  for_range (Z.to_nat n) (λ j '(i, data_target),
      let i :=
        if negb (Qle_bool (inject_Z (Z.of_nat j))
                   (inject_Z (Z.of_nat i + 1) * pixdim.2 / pixdim.1.1)%Q)
           && (Z.of_nat i <? Z.of_nat shape.2 - 1)
        then S i else i in
      slice_i ← getitem data i;
      Ok (i, <[j := Some (astype_int16 slice_i)]> data_target))
    (O, data_target).

Definition resample_to_isotropic_grid (img : FetalImage) (order : Z)
  : result Nifti1Image :=
  let shape := get_data_shape img in
  let pixdim := get_zooms img in
  let n := number_of_slices_target_through_plane shape pixdim in
  let data_target := replicate (Z.to_nat n) (@None I) in
  data_target ←
    (if decide (order = 0)
     then nearest_neighbour img n data_target
     else Ok data_target);
  Ok {| data_shape := (shape.1.1, shape.1.2, n);
        zooms := (pixdim.1.1, pixdim.1.1, pixdim.1.1);
        dataobj := data_target |}.
End Registration.
End Registration.

(** ** [RegistrationSimpleITK.py]: the registration-type accessors *)

Module RegistrationSimpleITK.

(** The attributes these accessors touch. *)
Record object : Type := {
  _registration_type : string;
  _initializer_type : option string;
  _interpolator : string
}.

(** Python values that can be bound to a name in these methods. *)
Inductive value : Type :=
| Str (s : string)
| NoneValue
| Object_ (o : object)
| Module_ (name : string)
| Class_ (name : string)
| Function_ (name : string).

(** A call frame: the function's locals, the module's globals and the
    builtins. *)
Record frame : Type := {
  f_locals : list (string * value);
  f_globals : list (string * value);
  f_builtins : list (string * value)
}.

Fixpoint assoc (name : string) (ns : list (string * value)) : option value :=
  match ns with
  | [] => None
  | (k, v) :: ns' => if decide (k = name) then Some v else assoc name ns'
  end.

(** Evaluation of a bare name: locals, then globals, then builtins, else
    [NameError]. *)
Definition load_name (fr : frame) (name : string) : result value :=
  match assoc name (f_locals fr) with
  | Some v => Ok v
  | None =>
      match assoc name (f_globals fr) with
      | Some v => Ok v
      | None =>
          match assoc name (f_builtins fr) with
          | Some v => Ok v
          | None => Raise (NameError name)
          end
      end
  end.

(** The names bound at module level by the imports and the class
    statement. *)
Definition module_globals : list (string * value) :=
  [ ("os", Module_ "os"); ("sys", Module_ "sys"); ("itk", Module_ "itk");
    ("sitk", Module_ "SimpleITK"); ("np", Module_ "numpy");
    ("literal_eval", Function_ "ast.literal_eval");
    ("sitkh", Module_ "pythonhelper.SimpleITKHelper");
    ("ph", Module_ "pythonhelper.PythonHelper");
    ("st", Module_ "base.Stack"); ("psf", Module_ "base.PSF");
    ("RegistrationSimpleITK", Class_ "RegistrationSimpleITK") ].

Definition set_registration_type (self : object)
    (registration_type : string) : result object :=
  if bool_decide (registration_type ∉ ["Rigid"; "Similarity"; "Affine"])
  then Raise (ValueError
    "Error: Registration type can only be 'Rigid', 'Similarity' or 'Affine'")
  else Ok {| _registration_type := registration_type;
             _initializer_type := _initializer_type self;
             _interpolator := _interpolator self |}.

(** [return registration_type]: the only local of the method is [self]. *)
Definition get_registration_type (builtins : list (string * value))
    (self : object) : result value :=
  load_name {| f_locals := [("self", Object_ self)];
               f_globals := module_globals;
               f_builtins := builtins |}
            "registration_type".

Definition set_initializer_type (self : object)
    (initializer_type : option string) : result object :=
  if bool_decide (initializer_type ∉ [None; Some "MOMENTS"; Some "GEOMETRY"])
  then Raise (ValueError
    "Error: centered transform initializer type can only be 'None', MOMENTS' or 'GEOMETRY'")
  else Ok {| _registration_type := _registration_type self;
             _initializer_type := initializer_type;
             _interpolator := _interpolator self |}.

Definition get_centered_transform_initializer (self : object)
  : option string :=
  _initializer_type self.

Definition set_interpolator (self : object) (interpolator_type : string)
  : result object :=
  if bool_decide (interpolator_type ∉ ["Linear"; "NearestNeighbor"; "BSpline"])
  then Raise (ValueError
    "Error: Interpolator can only be either 'Linear', 'NearestNeighbor' or 'BSpline'")
  else Ok {| _registration_type := _registration_type self;
             _initializer_type := _initializer_type self;
             _interpolator := interpolator_type |}.

Definition get_interpolator (self : object) : string := _interpolator self.
End RegistrationSimpleITK.

(** ** Well-formed inputs and the stacked operators written out *)

Section wellformed.
Context {R : Type} `{Float R} `{SliceOperators R}.

(** The 3-D image of a stack is the pile of its slices: as many slices as
    the image is deep, at least one, and the first slice lies on the
    in-plane grid of the stack. *)
Definition stack_geometry (stack : Stack R) : Prop :=
  ∃ nx ny slice_0 rest,
    GetSize (geometry (sitk stack)) = (nx, ny, get_number_of_slices stack) ∧
    get_slices stack = slice_0 :: rest ∧
    length (get_slices stack) = get_number_of_slices stack ∧
    GetSize (geometry (slice_sitk slice_0)) = (nx, ny, 1%nat).

(** All slices of a stack have the voxel count of the stack's first
    slice. *)
Definition uniform_slices (stack : Stack R) : Prop :=
  ∀ slice_0, head (get_slices stack) = Some slice_0 →
    Forall (λ slice_k,
              Solver.slice_voxels slice_k = Solver.slice_voxels slice_0)
           (get_slices stack).

(** The voxel buffer of a slice has one entry per voxel of its grid. *)
Definition slice_buffer (slice_k : Slice R) : Prop :=
  length (GetArrayFromImage (slice_itk slice_k))
  = Z.to_nat (Solver.slice_voxels slice_k).

(** The sum over slices of each slice's voxel count. *)
Definition sum_slice_voxels (slices : list (Slice R)) : Z :=
  foldr (λ slice_k acc, Solver.slice_voxels slice_k + acc) 0 slices.

(** The bookkeeping fields are those the constructor computes from the
    stacks and the HR volume the object holds. *)
Definition constructed (s : TikhonovSolver R) : Prop :=
  _N_stacks s = length (_stacks s) ∧
  _N_total_slice_voxels s
  = foldl (λ N_total stack,
             N_total + np.prod (np.array (GetSize (geometry (sitk stack)))))
          0 (_stacks s) ∧
  _N_voxels_HR_volume s
  = np.prod (np.array (GetSize (geometry (sitk (_HR_volume s))))).

(** The mask is elementwise: it keeps the length of a slice vector. *)
Definition mask_keeps_length : Prop :=
  ∀ (slice_k : Slice R) (y_k : list R), length (M_k slice_k y_k) = length y_k.

(** Domains and codomains of the kernels for the volume and the slices of
    a solver: [A_k] maps HR vectors to slice vectors, [A_k_adj] back, the
    mask keeps the length, the gradient has three components per voxel. *)
Record operator_shapes (s : TikhonovSolver R) : Prop := {
  A_k_length : ∀ slice_k x,
    length x = Z.to_nat (_N_voxels_HR_volume s) →
    length (A_k (_HR_volume s) slice_k x)
    = Z.to_nat (Solver.slice_voxels slice_k);
  A_k_adj_length : ∀ slice_k y_k,
    length y_k = Z.to_nat (Solver.slice_voxels slice_k) →
    length (A_k_adj (_HR_volume s) slice_k y_k)
    = Z.to_nat (_N_voxels_HR_volume s);
  M_k_length : mask_keeps_length;
  grad_length : ∀ x,
    length x = Z.to_nat (_N_voxels_HR_volume s) →
    length (grad (_HR_volume s) x)
    = Z.to_nat (3 * _N_voxels_HR_volume s);
  grad_adj_length : ∀ g,
    length g = Z.to_nat (3 * _N_voxels_HR_volume s) →
    length (grad_adj (_HR_volume s) g)
    = Z.to_nat (_N_voxels_HR_volume s)
}.

(** The masked data of a slice as [_get_b] stores it. *)
Definition masked_slice_data (slice_k : Slice R) : list R :=
  M_k slice_k (GetArrayFromImage (slice_itk slice_k)).

(** One pass of the inner loop of [_get_b], for a given slice. *)
Definition store_slice (N_slice_voxels : Z) (slice_k : Slice R)
    (st : list R * Z) : result (list R * Z) :=
  let '(b, i_min) := st in
  b ← np.setslice b (Some i_min) (Some (i_min + N_slice_voxels))
        (GetArrayFromImage (Solver.Mk (slice_itk slice_k) slice_k));
  Ok (b, i_min + N_slice_voxels).

(** One pass of the outer loop of [_get_b], for a given stack. *)
Definition store_stack (stack : Stack R) (st : list R * Z)
  : result (list R * Z) :=
  slice_0 ← getitem (get_slices stack) 0;
  for_in (get_slices stack)
    (store_slice
       (np.prod (np.array (GetSize (geometry (slice_sitk slice_0))))))
    st.

(** [v_1 + ... + v_n] on the HR grid. *)
Definition vsum (N : nat) (vs : list (list R)) : list R :=
  foldl (zip_with f_add) (replicate N f_zero) vs.

(** The terms [A_k^* M_k y_k], one per slice, for the per-slice blocks
    [y_k] of a stacked vector. *)
Definition adjoint_terms (s : TikhonovSolver R) (y : list R)
  : list (list R) :=
  map (λ '(slice_k, y_k), A_k_adj (_HR_volume s) slice_k (M_k slice_k y_k))
      (Solver.blocks (Solver.all_slices (_stacks s)) y).
End wellformed.

(** ** The outcomes of [run_reconstruction], written out *)

Section outcomes.
Context {R : Type} `{Float R} `{SliceOperators R}.

(** The three lines printed at the start of a run. *)
Definition printed (s : TikhonovSolver R) : list (event R) :=
  [ print_text (if bool_decide (_reg_type s ∈ ["TK0"])
                then "Chosen regularization type: zero-order Tikhonov"
                else "Chosen regularization type: first-order Tikhonov");
    print_float "Regularization parameter = " (_alpha s);
    print_int "Maximum number of iterations = " (_iter_max s) ].

(** The operator handed to the solve. *)
Definition assembled_operator (s : TikhonovSolver R) : LinearOperator R :=
  {| shape := (TikhonovSolver.N_voxels_of s, _N_voxels_HR_volume s);
     matvec := TikhonovSolver.A_fw s (TikhonovSolver.N_voxels_of s);
     rmatvec := TikhonovSolver.A_bw s |}.

(** The call the constructor of the operator makes: [matvec] on the zero
    vector of the HR grid. *)
Definition operator_probe (s : TikhonovSolver R) : result (list R) :=
  v ← np.zeros (_N_voxels_HR_volume s);
  TikhonovSolver.A_fw s (TikhonovSolver.N_voxels_of s) v.

(** The HR volume after the two assignments that end a run. *)
Definition updated_HR_volume (HR_nda_vec : list R) (HR_volume : Stack R)
  : Stack R :=
  let image_itk :=
    Solver.get_itk_image_from_array_vec HR_nda_vec (itk HR_volume) in
  {| sitk := sitkh.convert_itk_to_sitk_image image_itk;
     itk := image_itk;
     get_slices := get_slices HR_volume;
     get_number_of_slices := get_number_of_slices HR_volume |}.

(** The events that write the HR volume. *)
Definition is_assignment (e : event R) : bool :=
  match e with
  | assign_HR_volume_itk | assign_HR_volume_sitk => true
  | _ => false
  end.

Definition is_call_lsqr (e : event R) : bool :=
  match e with
  | call_lsqr _ => true
  | _ => false
  end.
End outcomes.

(** ** An integer-valued phantom

    Exact integer scalars, a box blur as acquisition operator, a mask that
    blanks the odd-numbered slices, and a gradient-descent iteration as
    Krylov method: small enough to run the solver by evaluation. *)

Module Phantom.

#[global] Instance Z_float : Float Z :=
  {| f_zero := 0; f_add := Z.add; f_mul := Z.mul; f_sqrt := Z.sqrt |}.

Definition total (v : list Z) : Z := foldr Z.add 0 v.

Definition HR_voxels (HR_volume : Stack Z) : nat :=
  Z.to_nat (np.prod (np.array (GetSize (geometry (sitk HR_volume))))).

#[global] Instance box_operators : SliceOperators Z :=
  {| A_k := λ _ slice_k x,
       replicate (Z.to_nat (np.prod (np.array
                    (GetSize (geometry (slice_sitk slice_k))))))
                 (total x);
     A_k_adj := λ HR_volume _ y_k,
       replicate (HR_voxels HR_volume) (total y_k);
     M_k := λ slice_k y_k,
       if Nat.even (slice_number slice_k) then y_k
       else map (λ _, 0) y_k;
     grad := λ _ x, x ++ x ++ x;
     grad_adj := λ HR_volume g, take (HR_voxels HR_volume) g |}.

(** State: the right-hand side, the iterate and the last gradient. *)
#[global] Instance descent : KrylovMethod Z :=
  {| krylov_state := list Z * list Z * list Z;
     krylov_init := λ A b, Ok (b, replicate (Z.to_nat (shape A).2) 0, []);
     krylov_step := λ A '(b, x, _),
       A_x ← matvec A x;
       g ← rmatvec A (zip_with Z.sub b A_x);
       Ok (b, zip_with Z.add x g, g);
     krylov_converged := λ '(_, _, g), forallb (Z.eqb 0) g;
     krylov_x := λ '(_, x, _), x;
     krylov_r1norm := λ '(b, _, _), total b |}.

Definition grid (nx ny nz : nat) : Geometry Z :=
  {| GetSize := (nx, ny, nz); GetSpacing := (1, 1, 1);
     GetOrigin := (0, 0, 0); GetDirection := [1; 0; 0; 0; 1; 0; 0; 0; 1] |}.

Definition image (nx ny nz : nat) (nda : list Z) : Image Z :=
  {| geometry := grid nx ny nz; GetArrayFromImage := nda |}.

Definition slice (k : nat) (nda : list Z) : Slice Z :=
  {| slice_number := k; slice_sitk := image 2 1 1 nda;
     slice_itk := image 2 1 1 nda |}.

(** A stack of two slices of two voxels each. *)
Definition stack (y_0 y_1 : list Z) : Stack Z :=
  {| sitk := image 2 1 2 (y_0 ++ y_1); itk := image 2 1 2 (y_0 ++ y_1);
     get_slices := [slice 0 y_0; slice 1 y_1];
     get_number_of_slices := 2 |}.

(** An HR volume of two voxels. *)
Definition HR_volume : Stack Z :=
  {| sitk := image 1 1 2 [0; 0]; itk := image 1 1 2 [0; 0];
     get_slices := []; get_number_of_slices := 0 |}.

Definition solver (alpha iter_max : Z) (reg_type : string)
  : TikhonovSolver Z :=
  TikhonovSolver.__init__ [stack [1; 2] [3; 4]] HR_volume 3 alpha iter_max
    reg_type.

(** The same acquisition with nothing in the slices. *)
Definition blank_solver (alpha iter_max : Z) (reg_type : string)
  : TikhonovSolver Z :=
  TikhonovSolver.__init__ [stack [0; 0] [0; 0]] HR_volume 3 alpha iter_max
    reg_type.

(** No stack at all. *)
Definition empty_solver (alpha iter_max : Z) (reg_type : string)
  : TikhonovSolver Z :=
  TikhonovSolver.__init__ [] HR_volume 3 alpha iter_max reg_type.

(** An HR grid without voxels. *)
Definition no_HR_volume : Stack Z :=
  {| sitk := image 1 1 0 []; itk := image 1 1 0 [];
     get_slices := []; get_number_of_slices := 0 |}.

Definition hollow_solver (alpha iter_max : Z) (reg_type : string)
  : TikhonovSolver Z :=
  TikhonovSolver.__init__ [stack [1; 2] [3; 4]] no_HR_volume 3 alpha
    iter_max reg_type.

(** A stack that holds no slice. *)
Definition no_slices : Stack Z :=
  {| sitk := image 2 1 0 []; itk := image 2 1 0 [];
     get_slices := []; get_number_of_slices := 0 |}.

Definition world (s : TikhonovSolver Z) : World Z :=
  {| self := s; log := [] |}.
End Phantom.

(** A second iteration for the phantom: the same descent, but its
    convergence test never fires, so it always runs to the limit, and it
    reports another residual estimate. *)
Definition restless : KrylovMethod Z :=
  {| krylov_state := @krylov_state Z Phantom.descent;
     krylov_init := @krylov_init Z Phantom.descent;
     krylov_step := @krylov_step Z Phantom.descent;
     krylov_converged := λ _, false;
     krylov_x := @krylov_x Z Phantom.descent;
     krylov_r1norm := λ _, 1 |}.

(** The builtins a method of [RegistrationSimpleITK] may meet, in part. *)
Definition some_builtins : list (string * RegistrationSimpleITK.value) :=
  [ ("len", RegistrationSimpleITK.Function_ "len");
    ("range", RegistrationSimpleITK.Function_ "range");
    ("ValueError", RegistrationSimpleITK.Class_ "ValueError");
    ("None", RegistrationSimpleITK.NoneValue) ].

(** ** Index walks of the nearest-neighbour loop *)

(** The source indices read by consecutive target slices, starting after
    index [i]: each one is the previous index or its successor. *)
Fixpoint walks (i : nat) (idx : list nat) : Prop :=
  match idx with
  | [] => True
  | i' :: rest => (i' = i ∨ i' = S i) ∧ walks i' rest
  end.

(** One pass of the nearest-neighbour loop: the source index after the test
    of target slice [j], and the copy. *)
Definition advance (shape : nat * nat * nat) (pixdim : Q * Q * Q)
    (j i : nat) : nat :=
  if negb (Qle_bool (inject_Z (Z.of_nat j))
             (inject_Z (Z.of_nat i + 1) * pixdim.2 / pixdim.1.1)%Q)
     && (Z.of_nat i <? Z.of_nat shape.2 - 1)
  then S i else i.

Definition copy_slice {T I : Type} (astype_int16 : T → I)
    (shape : nat * nat * nat) (pixdim : Q * Q * Q) (data : list T) (j : nat)
    (st : nat * list (option I)) : result (nat * list (option I)) :=
  let '(i, data_target) := st in
  let i := advance shape pixdim j i in
  slice_i ← getitem data i;
  Ok (i, <[j := Some (astype_int16 slice_i)]> data_target).

(** * Properties *)

(** ** The error monad and the loops *)

Lemma for_in_app {A S : Type} (l1 l2 : list A) (body : A → S → result S)
    (s : S) :
  for_in (l1 ++ l2) body s = (s' ← for_in l1 body s; for_in l2 body s').
Proof.
  revert s. induction l1 as [|a l1 IH]; intros s; simpl; [done|].
  destruct (body a s) as [s'|e]; simpl; [apply IH|done].
Qed.

Lemma getitem_middle {A : Type} (pre l : list A) (a : A) :
  getitem (pre ++ a :: l) (length pre) = Ok a.
Proof. unfold getitem. by rewrite list_lookup_middle. Qed.

(** A loop over [range(0, len(l))] that starts by reading [l[i]] is the loop
    over the elements of [l]. *)
Lemma for_range_getitem_gen {A S : Type} (pre l : list A)
    (f : A → S → result S) (s : S) :
  for_in (seq (length pre) (length l))
         (λ i s, a ← getitem (pre ++ l) i; f a s) s
  = for_in l f s.
Proof.
  revert pre s. induction l as [|a l IH]; intros pre s; simpl; [done|].
  rewrite getitem_middle. simpl.
  destruct (f a s) as [s'|e]; simpl; [|done].
  specialize (IH (pre ++ [a]) s').
  rewrite length_app in IH. simpl in IH.
  rewrite Nat.add_1_r in IH. rewrite <- app_assoc in IH. simpl in IH.
  exact IH.
Qed.

Lemma for_range_getitem {A S : Type} (l : list A) (f : A → S → result S)
    (s : S) :
  for_range (length l) (λ i s, a ← getitem l i; f a s) s = for_in l f s.
Proof. apply (for_range_getitem_gen [] l f s). Qed.

Lemma for_in_ext {A S : Type} (l : list A) (f g : A → S → result S) (s : S) :
  (∀ a s, f a s = g a s) → for_in l f s = for_in l g s.
Proof.
  intros Hfg. revert s. induction l as [|a l IH]; intros s; simpl; [done|].
  rewrite Hfg. destruct (g a s); simpl; auto.
Qed.

Lemma for_in_ext_in {A S : Type} (l : list A) (f g : A → S → result S)
    (s : S) :
  (∀ a, a ∈ l → ∀ s, f a s = g a s) → for_in l f s = for_in l g s.
Proof.
  revert s. induction l as [|a l IH]; intros s Hfg; simpl; [done|].
  rewrite Hfg by left. destruct (g a s); simpl; [|done].
  apply IH. intros a' Ha'. apply Hfg. by right.
Qed.

(** ** numpy slices *)

Section np_facts.
Context {R : Type} `{Float R}.

Lemma prod_nonneg (a : list nat) : 0 ≤ np.prod a.
Proof. induction a; simpl; lia. Qed.

Lemma zeros_Ok (n : nat) :
  np.zeros (Z.of_nat n) = Ok (replicate n (f_zero : R)).
Proof.
  unfold np.zeros. destruct (Z.ltb_spec (Z.of_nat n) 0); [lia|].
  by rewrite Nat2Z.id.
Qed.

(** [a[0:-m] = v] fills the head when the tail has [m > 0] entries. *)
Lemma setslice_head (a v : list R) (m : nat) :
  (0 < m)%nat → length a = (length v + m)%nat →
  np.setslice a (Some 0) (Some (- Z.of_nat m)) v
  = Ok (v ++ drop (length v) a).
Proof.
  intros Hm Hlen. unfold np.setslice, np.slice_len, np.slice_start,
    np.slice_stop, np.bound.
  destruct (Z.ltb_spec 0 0); [lia|].
  destruct (Z.ltb_spec (- Z.of_nat m) 0); [|lia].
  replace (Z.to_nat (Z.min 0 (Z.of_nat (length a)))) with O by lia.
  replace (Z.to_nat (Z.max 0 (Z.max 0 (- Z.of_nat m + Z.of_nat (length a))
                              - Z.min 0 (Z.of_nat (length a)))))
    with (length v) by lia.
  rewrite decide_True by done. by rewrite take_0.
Qed.

(** [a[-m:] = v] fills the tail when [v] has [m > 0] entries. *)
Lemma setslice_tail (a v : list R) (k : nat) :
  (0 < length v)%nat → length a = (k + length v)%nat →
  np.setslice a (Some (- Z.of_nat (length v))) None v = Ok (take k a ++ v).
Proof.
  intros Hm Hlen. unfold np.setslice, np.slice_len, np.slice_start,
    np.slice_stop, np.bound.
  destruct (Z.ltb_spec (- Z.of_nat (length v)) 0); [|lia].
  replace (Z.to_nat (Z.max 0 (- Z.of_nat (length v) + Z.of_nat (length a))))
    with k by lia.
  replace (Z.to_nat (Z.max 0 (Z.of_nat (length a)
             - Z.max 0 (- Z.of_nat (length v) + Z.of_nat (length a)))))
    with (length v) by lia.
  rewrite decide_True by done.
  rewrite (drop_ge a) by lia. by rewrite app_nil_r.
Qed.

(** [a[-m:]] is the tail of [a] when [0 < m <= len(a)]. *)
Lemma getslice_tail (a : list R) (k m : nat) :
  (0 < m)%nat → length a = (k + m)%nat →
  np.getslice a (Some (- Z.of_nat m)) None = drop k a.
Proof.
  intros Hm Hlen. unfold np.getslice, np.slice_len, np.slice_start,
    np.slice_stop, np.bound.
  destruct (Z.ltb_spec (- Z.of_nat m) 0); [|lia].
  replace (Z.to_nat (Z.max 0 (- Z.of_nat m + Z.of_nat (length a))))
    with k by lia.
  apply take_ge. rewrite length_drop. lia.
Qed.

Lemma getslice_tail_Z (a : list R) (k m : Z) :
  0 ≤ k → 0 < m → Z.of_nat (length a) = k + m →
  np.getslice a (Some (- m)) None = drop (Z.to_nat k) a.
Proof.
  intros Hk Hm Hlen.
  rewrite <- (Z2Nat.id m) by lia.
  apply getslice_tail; lia.
Qed.

(** [b[i_min:i_max] = v] on a buffer whose filled part has [i_min] entries
    and whose rest still has room for [v]. *)
Lemma setslice_fill (filled v : list R) (room : nat) (z : R) :
  (length v ≤ room)%nat →
  np.setslice (filled ++ replicate room z)
    (Some (Z.of_nat (length filled)))
    (Some (Z.of_nat (length filled) + Z.of_nat (length v))) v
  = Ok ((filled ++ v) ++ replicate (room - length v) z).
Proof.
  intros Hroom. unfold np.setslice, np.slice_len, np.slice_start,
    np.slice_stop, np.bound.
  rewrite length_app, length_replicate.
  destruct (Z.ltb_spec (Z.of_nat (length filled)) 0); [lia|].
  destruct (Z.ltb_spec (Z.of_nat (length filled) + Z.of_nat (length v)) 0);
    [lia|].
  replace (Z.to_nat (Z.min (Z.of_nat (length filled))
                       (Z.of_nat (length filled + room))))
    with (length filled) by lia.
  replace (Z.to_nat (Z.max 0 (Z.min (Z.of_nat (length filled)
                                      + Z.of_nat (length v))
                                (Z.of_nat (length filled + room))
                              - Z.min (Z.of_nat (length filled))
                                  (Z.of_nat (length filled + room)))))
    with (length v) by lia.
  rewrite decide_True by done.
  rewrite take_app_length.
  rewrite drop_app_ge by lia.
  rewrite drop_replicate.
  replace (length filled + length v - length filled)%nat
    with (length v) by lia.
  by rewrite <- app_assoc.
Qed.

Lemma setslice_fill_Z (filled v : list R) (room : nat) (z : R) (n : Z) :
  n = Z.of_nat (length v) → (length v ≤ room)%nat →
  np.setslice (filled ++ replicate room z)
    (Some (Z.of_nat (length filled))) (Some (Z.of_nat (length filled) + n)) v
  = Ok ((filled ++ v) ++ replicate (room - length v) z).
Proof. intros ->. apply setslice_fill. Qed.

Lemma add_same_length (a b : list R) :
  length a = length b → np.add a b = Ok (zip_with f_add a b).
Proof. intros Hlen. unfold np.add. by rewrite decide_True. Qed.
End np_facts.

(** ** Voxel counts *)

Section counts.
Context {R : Type} `{Float R} `{SliceOperators R}.

Lemma slice_voxels_nonneg (slice_k : Slice R) :
  0 ≤ Solver.slice_voxels slice_k.
Proof. apply prod_nonneg. Qed.

Lemma sum_slice_voxels_nonneg (slices : list (Slice R)) :
  0 ≤ sum_slice_voxels slices.
Proof.
  induction slices as [|sl l IH]; simpl; [lia|].
  pose proof (slice_voxels_nonneg sl). lia.
Qed.

Lemma sum_slice_voxels_app (l1 l2 : list (Slice R)) :
  sum_slice_voxels (l1 ++ l2) = sum_slice_voxels l1 + sum_slice_voxels l2.
Proof. induction l1 as [|sl l1 IH]; simpl; lia. Qed.

Lemma sum_slice_voxels_uniform (slices : list (Slice R)) (n : Z) :
  Forall (λ slice_k, Solver.slice_voxels slice_k = n) slices →
  sum_slice_voxels slices = Z.of_nat (length slices) * n.
Proof.
  induction 1 as [|sl l Hsl _ IH]; simpl; [lia|].
  rewrite IH, Hsl. lia.
Qed.

(** The product of a stack's 3-D size is the sum of its slices' voxel
    counts. *)
Lemma stack_voxels (stack : Stack R) :
  stack_geometry stack → uniform_slices stack →
  np.prod (np.array (GetSize (geometry (sitk stack))))
  = sum_slice_voxels (get_slices stack).
Proof.
  intros (nx & ny & slice_0 & rest & Hsize & Hslices & Hlen & Hsize0) Huni.
  specialize (Huni slice_0). rewrite Hslices in Huni.
  specialize (Huni eq_refl). rewrite <- Hslices in Huni.
  rewrite (sum_slice_voxels_uniform _ _ Huni).
  unfold Solver.slice_voxels. rewrite Hsize, Hsize0, Hlen. simpl. lia.
Qed.

Lemma foldl_stack_voxels (stacks : list (Stack R)) (acc : Z) :
  Forall stack_geometry stacks → Forall uniform_slices stacks →
  foldl (λ N_total stack,
           N_total + np.prod (np.array (GetSize (geometry (sitk stack)))))
        acc stacks
  = acc + sum_slice_voxels (Solver.all_slices stacks).
Proof.
  intros Hgeo Huni. revert acc.
  induction stacks as [|stack stacks IH]; intros acc; simpl; [lia|].
  apply Forall_cons in Hgeo as [Hg Hgeo].
  apply Forall_cons in Huni as [Hu Huni].
  rewrite IH by done. unfold Solver.all_slices. simpl.
  rewrite sum_slice_voxels_app, (stack_voxels stack) by done.
  unfold Solver.all_slices. lia.
Qed.

(** What the constructor counts is the sum over all slices. *)
Lemma constructed_total (s : TikhonovSolver R) :
  constructed s →
  Forall stack_geometry (_stacks s) → Forall uniform_slices (_stacks s) →
  _N_total_slice_voxels s = sum_slice_voxels (Solver.all_slices (_stacks s)).
Proof.
  intros (_ & Htotal & _) Hgeo Huni.
  rewrite Htotal, foldl_stack_voxels by done. lia.
Qed.

Lemma MA_length (s : TikhonovSolver R) (x : list R) :
  operator_shapes s →
  length x = Z.to_nat (_N_voxels_HR_volume s) →
  length (Solver.MA s x)
  = Z.to_nat (sum_slice_voxels (Solver.all_slices (_stacks s))).
Proof.
  intros Hop Hx. unfold Solver.MA.
  induction (Solver.all_slices (_stacks s)) as [|sl l IH]; [done|].
  rewrite bind_cons, length_app, IH, (M_k_length s Hop _ _),
    (A_k_length s Hop) by done.
  simpl.
  pose proof (slice_voxels_nonneg sl).
  pose proof (sum_slice_voxels_nonneg l). lia.
Qed.
End counts.

(** ** The augmented forward operator *)

Section forward.
Context {R : Type} `{Float R} `{SliceOperators R} `{KrylovMethod R}.

(** The allocation followed by the two slice assignments of [_A_TK0] and
    [_A_TK1] stacks the data-fit block on the regularisation block. *)
Lemma stacked_assign (ma g : list R) (N_voxels m : Z) :
  N_voxels = Z.of_nat (length ma) + m → m = Z.of_nat (length g) → 0 < m →
  (A_x ← np.zeros N_voxels;
   A_x ← np.setslice A_x (Some 0) (Some (- m)) ma;
   A_x ← np.setslice A_x (Some (- m)) None g;
   Ok A_x) = Ok (ma ++ g).
Proof.
  intros -> -> Hm.
  rewrite <- Nat2Z.inj_add, zeros_Ok. simpl.
  rewrite setslice_head; [|lia|by rewrite length_replicate]. simpl.
  rewrite drop_replicate.
  replace (length ma + length g - length ma)%nat with (length g) by lia.
  rewrite (setslice_tail _ g (length ma));
    [|lia|by rewrite length_app, length_replicate].
  simpl. by rewrite take_app_length.
Qed.

Lemma scale_l_length (a : R) (v : list R) :
  length (np.scale_l a v) = length v.
Proof. apply length_map. Qed.

Lemma scale_r_length (v : list R) (a : R) :
  length (np.scale_r v a) = length v.
Proof. apply length_map. Qed.

Lemma N_voxels_of_TK0 (s : TikhonovSolver R) :
  _reg_type s = "TK0" →
  TikhonovSolver.N_voxels_of s
  = _N_total_slice_voxels s + _N_voxels_HR_volume s.
Proof. intros Hreg. unfold TikhonovSolver.N_voxels_of. by rewrite Hreg. Qed.

Lemma N_voxels_of_not_TK0 (s : TikhonovSolver R) :
  _reg_type s ≠ "TK0" →
  TikhonovSolver.N_voxels_of s
  = _N_total_slice_voxels s + 3 * _N_voxels_HR_volume s.
Proof.
  intros Hreg. unfold TikhonovSolver.N_voxels_of.
  rewrite bool_decide_eq_false_2; [done|].
  by intros ?%list_elem_of_singleton.
Qed.

Lemma A_TK0_stacked (s : TikhonovSolver R) (x : list R) (alpha : R) :
  _N_total_slice_voxels s
  = sum_slice_voxels (Solver.all_slices (_stacks s)) →
  operator_shapes s →
  0 < _N_voxels_HR_volume s →
  Z.of_nat (length x) = _N_voxels_HR_volume s →
  TikhonovSolver._A_TK0 s x
    (_N_total_slice_voxels s + _N_voxels_HR_volume s) alpha
  = Ok (Solver.MA s x ++ np.scale_l (f_sqrt alpha) x).
Proof.
  intros Htotal Hop HN Hx. unfold TikhonovSolver._A_TK0.
  apply stacked_assign; [|by rewrite scale_l_length|done].
  rewrite (MA_length s x Hop) by lia.
  rewrite Htotal.
  pose proof (sum_slice_voxels_nonneg (Solver.all_slices (_stacks s))). lia.
Qed.

Lemma A_TK1_stacked (s : TikhonovSolver R) (x : list R) (alpha : R) :
  _N_total_slice_voxels s
  = sum_slice_voxels (Solver.all_slices (_stacks s)) →
  operator_shapes s →
  0 < _N_voxels_HR_volume s →
  Z.of_nat (length x) = _N_voxels_HR_volume s →
  TikhonovSolver._A_TK1 s x
    (_N_total_slice_voxels s + 3 * _N_voxels_HR_volume s) alpha
  = Ok (Solver.MA s x ++ np.scale_l (f_sqrt alpha) (Solver.D s x)).
Proof.
  intros Htotal Hop HN Hx. unfold TikhonovSolver._A_TK1.
  apply stacked_assign; [| |lia].
  - rewrite (MA_length s x Hop) by lia.
    rewrite Htotal.
    pose proof (sum_slice_voxels_nonneg (Solver.all_slices (_stacks s))).
    lia.
  - rewrite scale_l_length. unfold Solver.D.
    rewrite (grad_length s Hop) by lia. lia.
Qed.
End forward.

(** ** The augmented adjoint operator *)

Section adjoint.
Context {R : Type} `{Float R} `{SliceOperators R} `{KrylovMethod R}.

(** Each block has the voxel count of its slice when the stacked vector is
    long enough. *)
Lemma blocks_lengths (slices : list (Slice R)) (y : list R) :
  (Z.to_nat (sum_slice_voxels slices) ≤ length y)%nat →
  Forall (λ '(slice_k, y_k),
            length y_k = Z.to_nat (Solver.slice_voxels slice_k))
         (Solver.blocks slices y).
Proof.
  revert y. induction slices as [|sl l IH]; intros y Hy; simpl; [done|].
  simpl in Hy.
  pose proof (slice_voxels_nonneg sl).
  pose proof (sum_slice_voxels_nonneg l).
  constructor.
  - rewrite length_take. lia.
  - apply IH. rewrite length_drop. lia.
Qed.

(** The blocks, put end to end, are the data-fit part of the stacked
    vector. *)
Lemma blocks_partition (slices : list (Slice R)) (y : list R) :
  concat (Solver.blocks slices y).*2
  = take (Z.to_nat (sum_slice_voxels slices)) y.
Proof.
  revert y. induction slices as [|sl l IH]; intros y; simpl; [done|].
  pose proof (slice_voxels_nonneg sl).
  pose proof (sum_slice_voxels_nonneg l).
  rewrite IH, Z2Nat.inj_add by done.
  by rewrite take_take_drop.
Qed.

Lemma vsum_length_gen (acc : list R) (vs : list (list R)) (N : nat) :
  length acc = N → Forall (λ v, length v = N) vs →
  length (foldl (zip_with f_add) acc vs) = N.
Proof.
  intros Hacc Hvs. revert acc Hacc.
  induction Hvs as [|v vs Hv _ IH]; intros acc Hacc; simpl; [done|].
  apply IH. rewrite length_zip_with. lia.
Qed.

Lemma accumulate_terms (s : TikhonovSolver R)
    (bl : list (Slice R * list R)) (acc : list R) :
  operator_shapes s →
  length acc = Z.to_nat (_N_voxels_HR_volume s) →
  Forall (λ '(slice_k, y_k),
            length y_k = Z.to_nat (Solver.slice_voxels slice_k)) bl →
  for_in bl
    (λ '(slice_k, y_k) acc,
       np.add acc (A_k_adj (_HR_volume s) slice_k (M_k slice_k y_k)))
    acc
  = Ok (foldl (zip_with f_add) acc
          (map (λ '(slice_k, y_k),
                  A_k_adj (_HR_volume s) slice_k (M_k slice_k y_k)) bl))
  ∧ length (foldl (zip_with f_add) acc
              (map (λ '(slice_k, y_k),
                      A_k_adj (_HR_volume s) slice_k (M_k slice_k y_k)) bl))
    = Z.to_nat (_N_voxels_HR_volume s).
Proof.
  intros Hop Hacc Hbl. revert acc Hacc.
  induction Hbl as [|[sl yk] bl Hyk _ IH]; intros acc Hacc; simpl; [done|].
  assert (length (A_k_adj (_HR_volume s) sl (M_k sl yk))
          = Z.to_nat (_N_voxels_HR_volume s)) as Hterm.
  { apply (A_k_adj_length s Hop). by rewrite (M_k_length s Hop _ _). }
  rewrite add_same_length by lia. simpl.
  apply IH. rewrite length_zip_with. lia.
Qed.

Lemma A_adj_M_sum (s : TikhonovSolver R) (y : list R) :
  operator_shapes s → 0 ≤ _N_voxels_HR_volume s →
  (Z.to_nat (sum_slice_voxels (Solver.all_slices (_stacks s))) ≤ length y)%nat →
  Solver.A_adj_M s y
  = Ok (vsum (Z.to_nat (_N_voxels_HR_volume s)) (adjoint_terms s y))
  ∧ length (vsum (Z.to_nat (_N_voxels_HR_volume s)) (adjoint_terms s y))
    = Z.to_nat (_N_voxels_HR_volume s).
Proof.
  intros Hop HN Hy. unfold Solver.A_adj_M, vsum, adjoint_terms.
  rewrite <- (Z2Nat.id (_N_voxels_HR_volume s)) at 1 by done.
  rewrite zeros_Ok. simpl.
  apply accumulate_terms; [done|by rewrite length_replicate|].
  by apply blocks_lengths.
Qed.

Lemma A_adj_TK0_sum (s : TikhonovSolver R) (y : list R) (alpha : R) :
  _N_total_slice_voxels s
  = sum_slice_voxels (Solver.all_slices (_stacks s)) →
  operator_shapes s →
  0 < _N_voxels_HR_volume s →
  Z.of_nat (length y) = _N_total_slice_voxels s + _N_voxels_HR_volume s →
  TikhonovSolver._A_adj_TK0 s y alpha
  = Ok (zip_with f_add
          (vsum (Z.to_nat (_N_voxels_HR_volume s)) (adjoint_terms s y))
          (np.scale_r (drop (Z.to_nat (_N_total_slice_voxels s)) y)
                      (f_sqrt alpha))).
Proof.
  intros Htotal Hop HN Hy. unfold TikhonovSolver._A_adj_TK0.
  pose proof (sum_slice_voxels_nonneg (Solver.all_slices (_stacks s))).
  destruct (A_adj_M_sum s y Hop) as [-> Hlen]; [lia|lia|]. simpl.
  rewrite (getslice_tail_Z y (_N_total_slice_voxels s)) by lia.
  rewrite add_same_length; [done|].
  rewrite scale_r_length, length_drop. lia.
Qed.

Lemma A_adj_TK1_sum (s : TikhonovSolver R) (y : list R) (alpha : R) :
  _N_total_slice_voxels s
  = sum_slice_voxels (Solver.all_slices (_stacks s)) →
  operator_shapes s →
  0 < _N_voxels_HR_volume s →
  Z.of_nat (length y) = _N_total_slice_voxels s + 3 * _N_voxels_HR_volume s →
  TikhonovSolver._A_adj_TK1 s y alpha
  = Ok (zip_with f_add
          (vsum (Z.to_nat (_N_voxels_HR_volume s)) (adjoint_terms s y))
          (np.scale_r
             (grad_adj (_HR_volume s)
                (drop (Z.to_nat (_N_total_slice_voxels s)) y))
             (f_sqrt alpha))).
Proof.
  intros Htotal Hop HN Hy. unfold TikhonovSolver._A_adj_TK1.
  pose proof (sum_slice_voxels_nonneg (Solver.all_slices (_stacks s))).
  destruct (A_adj_M_sum s y Hop) as [-> Hlen]; [lia|lia|]. simpl.
  unfold Solver.D_adj.
  rewrite (getslice_tail_Z y (_N_total_slice_voxels s)) by lia.
  rewrite add_same_length; [done|].
  rewrite scale_r_length, (grad_adj_length s Hop); [lia|].
  rewrite length_drop. lia.
Qed.
End adjoint.

(** ** The right-hand side *)

Section rhs.
Context {R : Type} `{Float R} `{SliceOperators R} `{KrylovMethod R}.

Lemma masked_slice_data_length (slice_k : Slice R) :
  mask_keeps_length → slice_buffer slice_k →
  length (masked_slice_data slice_k)
  = Z.to_nat (Solver.slice_voxels slice_k).
Proof.
  intros Hop Hbuf. unfold masked_slice_data.
  by rewrite Hop.
Qed.

Lemma store_slice_fill (slice_k : Slice R)
    (filled : list R) (room : nat) :
  mask_keeps_length → slice_buffer slice_k →
  (Z.to_nat (Solver.slice_voxels slice_k) ≤ room)%nat →
  store_slice (Solver.slice_voxels slice_k) slice_k
    (filled ++ replicate room f_zero, Z.of_nat (length filled))
  = Ok ((filled ++ masked_slice_data slice_k)
          ++ replicate (room - Z.to_nat (Solver.slice_voxels slice_k)) f_zero,
        Z.of_nat (length (filled ++ masked_slice_data slice_k))).
Proof.
  intros Hop Hbuf Hroom.
  pose proof (slice_voxels_nonneg slice_k).
  pose proof (masked_slice_data_length slice_k Hop Hbuf) as Hdata.
  unfold store_slice.
  change (GetArrayFromImage (Solver.Mk (slice_itk slice_k) slice_k))
    with (masked_slice_data slice_k).
  rewrite setslice_fill_Z by lia. cbn [mbind result_bind].
  rewrite length_app, Hdata. do 2 f_equal. lia.
Qed.

Lemma store_slices_fill (slices : list (Slice R))
    (n0 : Z) (filled : list R) (room : nat) :
  mask_keeps_length →
  Forall (λ slice_k, Solver.slice_voxels slice_k = n0) slices →
  Forall slice_buffer slices →
  (Z.to_nat (sum_slice_voxels slices) ≤ room)%nat →
  for_in slices (store_slice n0)
    (filled ++ replicate room f_zero, Z.of_nat (length filled))
  = Ok ((filled ++ (slices ≫= masked_slice_data))
          ++ replicate (room - Z.to_nat (sum_slice_voxels slices)) f_zero,
        Z.of_nat (length filled) + sum_slice_voxels slices).
Proof.
  intros Hop Hn Hbuf. revert filled room.
  induction slices as [|sl l IH]; intros filled room Hroom.
  { simpl. rewrite app_nil_r, Nat.sub_0_r, Z.add_0_r. done. }
  apply Forall_cons in Hn as [Hn0 Hn].
  apply Forall_cons in Hbuf as [Hb0 Hbuf].
  pose proof (slice_voxels_nonneg sl).
  pose proof (sum_slice_voxels_nonneg l).
  pose proof (masked_slice_data_length sl Hop Hb0) as Hdata.
  change (sum_slice_voxels (sl :: l))
    with (Solver.slice_voxels sl + sum_slice_voxels l) in *.
  cbn [for_in]. rewrite <- Hn0 at 1.
  rewrite store_slice_fill by (try done; lia).
  cbn [mbind result_bind].
  rewrite IH by (try done; lia).
  rewrite bind_cons, <- !app_assoc, length_app.
  f_equal. f_equal; [|lia].
  do 4 f_equal. lia.
Qed.

Lemma store_stack_fill (stack : Stack R)
    (filled : list R) (room : nat) :
  mask_keeps_length →
  stack_geometry stack → uniform_slices stack →
  Forall slice_buffer (get_slices stack) →
  (Z.to_nat (sum_slice_voxels (get_slices stack)) ≤ room)%nat →
  store_stack stack (filled ++ replicate room f_zero,
                     Z.of_nat (length filled))
  = Ok ((filled ++ (get_slices stack ≫= masked_slice_data))
          ++ replicate
               (room - Z.to_nat (sum_slice_voxels (get_slices stack)))
               f_zero,
        Z.of_nat (length filled) + sum_slice_voxels (get_slices stack)).
Proof.
  intros Hop (nx & ny & slice_0 & rest & _ & Hslices & _ & _) Huni Hbuf Hroom.
  unfold store_stack. specialize (Huni slice_0).
  rewrite Hslices in Huni |- *. specialize (Huni eq_refl). simpl getitem.
  unfold getitem. simpl lookup. cbn [mbind result_bind].
  rewrite <- Hslices in *.
  by apply store_slices_fill.
Qed.

Lemma store_stacks_fill (stacks : list (Stack R))
    (filled : list R) (room : nat) :
  mask_keeps_length →
  Forall stack_geometry stacks → Forall uniform_slices stacks →
  Forall slice_buffer (Solver.all_slices stacks) →
  (Z.to_nat (sum_slice_voxels (Solver.all_slices stacks)) ≤ room)%nat →
  for_in stacks store_stack
    (filled ++ replicate room f_zero, Z.of_nat (length filled))
  = Ok ((filled ++ (Solver.all_slices stacks ≫= masked_slice_data))
          ++ replicate
               (room - Z.to_nat (sum_slice_voxels (Solver.all_slices stacks)))
               f_zero,
        Z.of_nat (length filled)
        + sum_slice_voxels (Solver.all_slices stacks)).
Proof.
  intros Hop Hgeo Huni. revert filled room.
  induction stacks as [|stack stacks IH]; intros filled room Hbuf Hroom.
  { simpl. rewrite app_nil_r, Nat.sub_0_r, Z.add_0_r. done. }
  apply Forall_cons in Hgeo as [Hg Hgeo].
  apply Forall_cons in Huni as [Hu Huni].
  unfold Solver.all_slices in *. rewrite bind_cons in *.
  apply Forall_app in Hbuf as [Hb0 Hbuf].
  rewrite sum_slice_voxels_app in *.
  pose proof (sum_slice_voxels_nonneg (get_slices stack)).
  pose proof (sum_slice_voxels_nonneg (stacks ≫= get_slices)).
  simpl for_in.
  rewrite store_stack_fill by (try done; lia).
  cbn [mbind result_bind].
  assert (length (get_slices stack ≫= masked_slice_data)
          = Z.to_nat (sum_slice_voxels (get_slices stack))) as Hlen.
  { clear -Hop Hb0. induction Hb0 as [|sl l Hsl _ IHl]; [done|].
    rewrite bind_cons, length_app, IHl,
      (masked_slice_data_length sl Hop Hsl).
    simpl. pose proof (slice_voxels_nonneg sl).
    pose proof (sum_slice_voxels_nonneg l). lia. }
  replace (Z.of_nat (length filled) + sum_slice_voxels (get_slices stack))
    with (Z.of_nat (length (filled ++ (get_slices stack ≫= masked_slice_data))))
    by (rewrite length_app; lia).
  rewrite IH by (try done; lia).
  rewrite bind_app, <- !app_assoc, length_app.
  f_equal. f_equal; [|lia].
  do 4 f_equal. lia.
Qed.

(** The loops of [_get_b] are the two nested traversals above. *)
Lemma get_b_loop_unfold (s : TikhonovSolver R) (N_voxels : Z) :
  _N_stacks s = length (_stacks s) →
  Forall stack_geometry (_stacks s) →
  TikhonovSolver._get_b_loop s N_voxels
  = (b ← np.zeros N_voxels; for_in (_stacks s) store_stack (b, 0)).
Proof.
  intros HN Hgeo. unfold TikhonovSolver._get_b_loop.
  destruct (np.zeros N_voxels) as [b|e]; simpl; [|done].
  rewrite HN.
  rewrite <- (for_in_ext_in (_stacks s)
    (λ stack st,
       slice_0 ← getitem (get_slices stack) 0;
       for_range (get_number_of_slices stack)
         (λ j st, slice_k ← getitem (get_slices stack) j;
                  store_slice
                    (np.prod (np.array
                       (GetSize (geometry (slice_sitk slice_0)))))
                    slice_k st)
         st)).
  - rewrite <- for_range_getitem. unfold for_range.
    apply for_in_ext. intros i [b' i_min].
    destruct (getitem (_stacks s) i) as [stack|e]; simpl; [|done].
    destruct (getitem (get_slices stack) 0) as [sl0|e]; simpl; [|done].
    apply for_in_ext. intros j [b'' i_min'']. simpl.
    by destruct (getitem (get_slices stack) j).
  - intros stack Hin st.
    rewrite Forall_forall in Hgeo.
    destruct (Hgeo stack Hin) as (nx & ny & slice_0 & rest & _ & _ & Hlen & _).
    unfold store_stack.
    destruct (getitem (get_slices stack) 0) as [sl0|e]; simpl; [|done].
    rewrite <- Hlen. apply for_range_getitem.
Qed.
Lemma all_masked_length (slices : list (Slice R)) :
  mask_keeps_length → Forall slice_buffer slices →
  length (slices ≫= masked_slice_data)
  = Z.to_nat (sum_slice_voxels slices).
Proof.
  intros Hop Hbuf. induction Hbuf as [|sl l Hsl _ IHl]; [done|].
  rewrite bind_cons, length_app, IHl, (masked_slice_data_length sl Hop Hsl).
  simpl. pose proof (slice_voxels_nonneg sl).
  pose proof (sum_slice_voxels_nonneg l). lia.
Qed.

(** [_get_b] on an augmented length [N_total + G]: the masked slices in
    order, then [G] zeros; the loop ends with [i_min = N_total]. *)
Lemma get_b_loop_result (s : TikhonovSolver R) (G : Z) :
  constructed s →
  Forall stack_geometry (_stacks s) → Forall uniform_slices (_stacks s) →
  Forall slice_buffer (Solver.all_slices (_stacks s)) →
  mask_keeps_length → 0 ≤ G →
  TikhonovSolver._get_b_loop s (_N_total_slice_voxels s + G)
  = Ok ((Solver.all_slices (_stacks s) ≫= masked_slice_data)
          ++ replicate (Z.to_nat G) f_zero,
        _N_total_slice_voxels s).
Proof.
  intros Hc Hgeo Huni Hbuf Hop HG.
  pose proof (constructed_total s Hc Hgeo Huni) as Htotal.
  pose proof (sum_slice_voxels_nonneg (Solver.all_slices (_stacks s))).
  rewrite get_b_loop_unfold by (done || apply Hc).
  replace (_N_total_slice_voxels s + G)
    with (Z.of_nat (Z.to_nat (_N_total_slice_voxels s) + Z.to_nat G)) by lia.
  rewrite zeros_Ok. cbn [mbind result_bind].
  pose proof (store_stacks_fill (_stacks s) []
                (Z.to_nat (_N_total_slice_voxels s) + Z.to_nat G)
                Hop Hgeo Huni Hbuf) as Hfill.
  change (Z.of_nat (length (@nil R))) with 0 in Hfill.
  rewrite !app_nil_l in Hfill. rewrite Hfill by lia.
  rewrite <- Htotal. rewrite Z.add_0_l.
  replace (Z.to_nat (_N_total_slice_voxels s) + Z.to_nat G
           - Z.to_nat (_N_total_slice_voxels s))%nat
    with (Z.to_nat G) by lia.
  done.
Qed.
End rhs.

(** ** The orchestration *)

Section run.
Context {R : Type} `{Float R} `{SliceOperators R} `{KrylovMethod R}.

(** [run_reconstruction] by cases: an exception of [_get_b] or of the
    construction of the operator ends the run after the prints, an
    exception inside the solve ends it after the call of [lsqr], and
    otherwise the HR volume is assigned. *)
Lemma run_reconstruction_cases (w : World R) :
  let s := self w in
  TikhonovSolver.run_reconstruction w
  = match TikhonovSolver._get_b s (TikhonovSolver.N_voxels_of s) with
    | Raise e => ({| self := s; log := log w ++ printed s |}, Raise e)
    | Ok b =>
        match operator_probe s with
        | Raise e => ({| self := s; log := log w ++ printed s |}, Raise e)
        | Ok _ =>
            match scipy.lsqr (assembled_operator s) b (_iter_max s) with
            | Raise e =>
                ({| self := s;
                    log := log w ++ printed s
                           ++ [call_lsqr (_iter_max s)] |},
                 Raise e)
            | Ok res =>
                ({| self :=
                      with_HR_volume (updated_HR_volume (res_x res)) s;
                    log := log w ++ printed s
                           ++ [call_lsqr (_iter_max s);
                               assign_HR_volume_itk;
                               assign_HR_volume_sitk] |},
                 Ok tt)
            end
        end
    end.
Proof.
  destruct w as [s l]. cbn [self].
  unfold TikhonovSolver.run_reconstruction, assembled_operator, printed,
    operator_probe, scipy.new_LinearOperator, TikhonovSolver.N_voxels_of.
  unfold mbind, Method_bind, mret, Method_ret, read, emit, lift, assign.
  cbn [self log]. unfold id.
  destruct (bool_decide (_reg_type s ∈ ["TK0"]));
    cbn [self log fst snd];
    (destruct (TikhonovSolver._get_b s _) as [b|e]; cbn [self log];
       rewrite <- ?app_assoc; simpl app; [|done]);
    (destruct (np.zeros (_N_voxels_HR_volume s)) as [v|e];
       cbn [result_bind self log fst snd]; [|done]);
    (destruct (TikhonovSolver.A_fw s _ v) as [probe|e];
       cbn [result_bind self log fst snd]; [|done]);
    (destruct (scipy.lsqr _ b (_iter_max s)) as [res|e]; cbn [self log];
       rewrite <- ?app_assoc; simpl app; done).
Qed.
End run.

(** ** The assembled system *)

Section assembled_system.
Context {R : Type} `{Float R} `{SliceOperators R}.

Lemma init_constructed (stacks : list (Stack R)) (HR_volume : Stack R)
    (alpha_cut alpha : R) (iter_max : Z) (reg_type : string) :
  constructed
    (TikhonovSolver.__init__ stacks HR_volume alpha_cut alpha iter_max
       reg_type).
Proof.
  split; [done|]. split; [|done].
  cbn [_N_total_slice_voxels _stacks TikhonovSolver.__init__
       Solver.__init__ Solver.N_stacks_ Solver.stacks_].
  by rewrite firstn_all.
Qed.

Lemma constructed_HR_nonneg (s : TikhonovSolver R) :
  constructed s → 0 ≤ _N_voxels_HR_volume s.
Proof. intros (_ & _ & ->). apply prod_nonneg. Qed.

Lemma A_fw_TK0 (s : TikhonovSolver R) (N_voxels : Z) (x : list R) :
  _reg_type s = "TK0" →
  TikhonovSolver.A_fw s N_voxels x
  = TikhonovSolver._A_TK0 s x N_voxels (_alpha s).
Proof. intros Hreg. unfold TikhonovSolver.A_fw. by rewrite Hreg. Qed.

Lemma A_fw_TK1 (s : TikhonovSolver R) (N_voxels : Z) (x : list R) :
  _reg_type s = "TK1" →
  TikhonovSolver.A_fw s N_voxels x
  = TikhonovSolver._A_TK1 s x N_voxels (_alpha s).
Proof. intros Hreg. unfold TikhonovSolver.A_fw. by rewrite Hreg. Qed.

Lemma A_bw_TK0 (s : TikhonovSolver R) (y : list R) :
  _reg_type s = "TK0" →
  TikhonovSolver.A_bw s y = TikhonovSolver._A_adj_TK0 s y (_alpha s).
Proof. intros Hreg. unfold TikhonovSolver.A_bw. by rewrite Hreg. Qed.

Lemma A_bw_TK1 (s : TikhonovSolver R) (y : list R) :
  _reg_type s = "TK1" →
  TikhonovSolver.A_bw s y = TikhonovSolver._A_adj_TK1 s y (_alpha s).
Proof. intros Hreg. unfold TikhonovSolver.A_bw. by rewrite Hreg. Qed.

Lemma N_voxels_of_TK1 (s : TikhonovSolver R) :
  _reg_type s = "TK1" →
  TikhonovSolver.N_voxels_of s
  = _N_total_slice_voxels s + 3 * _N_voxels_HR_volume s.
Proof. intros Hreg. apply N_voxels_of_not_TK0. by rewrite Hreg. Qed.

(** C1.  On a non-empty HR grid, with [N_total_slice_voxels] the sum of
    the slices' voxel counts, for every HR vector [x] of length [N_HR] the
    assembled forward operator returns the stacked vector
    [MA x ; sqrt(alpha) G x].  Under TK0 its length is
    [N_total_slice_voxels + N_HR] and its trailing [N_HR] entries are
    [sqrt(alpha) x]; under TK1 its length is
    [N_total_slice_voxels + 3 N_HR] and its trailing [3 N_HR] entries are
    [sqrt(alpha) D x]; in both cases the leading [N_total_slice_voxels]
    entries are the masked per-slice projections [MA x]. *)
Theorem augmented_forward_operator (s : TikhonovSolver R) (x : list R) :
  _N_total_slice_voxels s
  = sum_slice_voxels (Solver.all_slices (_stacks s)) →
  operator_shapes s →
  0 < _N_voxels_HR_volume s →
  Z.of_nat (length x) = _N_voxels_HR_volume s →
  let N_total := Z.to_nat (_N_total_slice_voxels s) in
  let A_fw := TikhonovSolver.A_fw s (TikhonovSolver.N_voxels_of s) in
  (_reg_type s = "TK0" →
     ∃ A_x, A_fw x = Ok A_x ∧
       A_x = Solver.MA s x ++ np.scale_l (f_sqrt (_alpha s)) x ∧
       Z.of_nat (length A_x)
       = _N_total_slice_voxels s + _N_voxels_HR_volume s ∧
       take N_total A_x = Solver.MA s x ∧
       drop N_total A_x = np.scale_l (f_sqrt (_alpha s)) x ∧
       Z.of_nat (length (drop N_total A_x)) = _N_voxels_HR_volume s) ∧
  (_reg_type s = "TK1" →
     ∃ A_x, A_fw x = Ok A_x ∧
       A_x = Solver.MA s x
             ++ np.scale_l (f_sqrt (_alpha s)) (Solver.D s x) ∧
       Z.of_nat (length A_x)
       = _N_total_slice_voxels s + 3 * _N_voxels_HR_volume s ∧
       take N_total A_x = Solver.MA s x ∧
       drop N_total A_x
       = np.scale_l (f_sqrt (_alpha s)) (Solver.D s x) ∧
       Z.of_nat (length (drop N_total A_x)) = 3 * _N_voxels_HR_volume s).
Proof.
  intros Htotal Hop HN Hx N_total A_fw.
  pose proof (sum_slice_voxels_nonneg (Solver.all_slices (_stacks s))).
  assert (length (Solver.MA s x) = N_total) as HMA.
  { rewrite (MA_length s x Hop) by lia. by rewrite <- Htotal. }
  split; intros Hreg; eexists; (split; [|split; [reflexivity|]]).
  - unfold A_fw. rewrite N_voxels_of_TK0, A_fw_TK0 by done.
    by apply A_TK0_stacked.
  - rewrite <- HMA, take_app_length, drop_app_length.
    rewrite length_app, scale_l_length. repeat split; lia.
  - unfold A_fw. rewrite N_voxels_of_TK1, A_fw_TK1 by done.
    by apply A_TK1_stacked.
  - rewrite <- HMA, take_app_length, drop_app_length.
    rewrite length_app, scale_l_length. unfold Solver.D.
    rewrite (grad_length s Hop) by lia. repeat split; lia.
Qed.

(** C2.  On a non-empty HR grid, with [N_total_slice_voxels] the sum of
    the slices' voxel counts, for every stacked vector [y] of length
    [N_total_slice_voxels + size(G)] the assembled adjoint operator
    returns the sum over all slices of [A_k^* M_k] applied to the
    per-slice blocks of [y] (which partition its leading
    [N_total_slice_voxels] entries), plus [sqrt(alpha)] times the adjoint
    of [G] applied to the trailing block: the last [N_HR] entries of [y]
    under TK0, and [D^*] of the last [3 N_HR] entries under TK1. *)
Theorem augmented_adjoint_operator (s : TikhonovSolver R) (y : list R) :
  _N_total_slice_voxels s
  = sum_slice_voxels (Solver.all_slices (_stacks s)) →
  operator_shapes s →
  0 < _N_voxels_HR_volume s →
  Z.of_nat (length y) = TikhonovSolver.N_voxels_of s →
  let N_total := Z.to_nat (_N_total_slice_voxels s) in
  let N_HR := Z.to_nat (_N_voxels_HR_volume s) in
  let y_tail := drop N_total y in
  concat (Solver.blocks (Solver.all_slices (_stacks s)) y).*2
  = take N_total y ∧
  (_reg_type s = "TK0" →
     Z.of_nat (length y_tail) = _N_voxels_HR_volume s ∧
     TikhonovSolver.A_bw s y
     = Ok (zip_with f_add
             (vsum N_HR (adjoint_terms s y))
             (np.scale_r y_tail (f_sqrt (_alpha s))))) ∧
  (_reg_type s = "TK1" →
     Z.of_nat (length y_tail) = 3 * _N_voxels_HR_volume s ∧
     TikhonovSolver.A_bw s y
     = Ok (zip_with f_add
             (vsum N_HR (adjoint_terms s y))
             (np.scale_r (grad_adj (_HR_volume s) y_tail)
                         (f_sqrt (_alpha s))))).
Proof.
  intros Htotal Hop HN Hy N_total N_HR y_tail.
  pose proof (sum_slice_voxels_nonneg (Solver.all_slices (_stacks s))).
  split; [|split; intros Hreg].
  - rewrite blocks_partition. unfold N_total. by rewrite Htotal.
  - rewrite N_voxels_of_TK0 in Hy by done. split.
    + unfold y_tail, N_total. rewrite length_drop. lia.
    + rewrite A_bw_TK0 by done. by apply A_adj_TK0_sum.
  - rewrite N_voxels_of_TK1 in Hy by done. split.
    + unfold y_tail, N_total. rewrite length_drop. lia.
    + rewrite A_bw_TK1 by done. by apply A_adj_TK1_sum.
Qed.

(** C3.  For every set of stacks that are the piles of their slices, the
    right-hand side [b] built before the solve has length
    [N_total_slice_voxels + size(G)]; its leading block holds, in stack
    order and then slice order, each slice's data with the mask [M_k]
    applied, and its trailing regularisation block ([N_HR] entries for
    TK0, [3 N_HR] for TK1) consists of zeros only. *)
Theorem right_hand_side (s : TikhonovSolver R) :
  constructed s →
  Forall stack_geometry (_stacks s) → Forall uniform_slices (_stacks s) →
  Forall slice_buffer (Solver.all_slices (_stacks s)) →
  mask_keeps_length →
  let N_total := Z.to_nat (_N_total_slice_voxels s) in
  ∃ b, TikhonovSolver._get_b s (TikhonovSolver.N_voxels_of s) = Ok b ∧
    Z.of_nat (length b) = TikhonovSolver.N_voxels_of s ∧
    take N_total b = Solver.all_slices (_stacks s) ≫= masked_slice_data ∧
    (_reg_type s = "TK0" →
       drop N_total b
       = replicate (Z.to_nat (_N_voxels_HR_volume s)) f_zero) ∧
    (_reg_type s = "TK1" →
       drop N_total b
       = replicate (Z.to_nat (3 * _N_voxels_HR_volume s)) f_zero).
Proof.
  intros Hc Hgeo Huni Hbuf Hmask N_total.
  pose proof (constructed_total s Hc Hgeo Huni) as Htotal.
  pose proof (sum_slice_voxels_nonneg (Solver.all_slices (_stacks s))).
  pose proof (constructed_HR_nonneg s Hc) as HN.
  pose proof (all_masked_length _ Hmask Hbuf) as Hlen.
  assert (∀ G, 0 ≤ G →
    TikhonovSolver._get_b s (_N_total_slice_voxels s + G)
    = Ok ((Solver.all_slices (_stacks s) ≫= masked_slice_data)
            ++ replicate (Z.to_nat G) f_zero)) as Hb.
  { intros G HG. unfold TikhonovSolver._get_b.
    by rewrite get_b_loop_result. }
  assert (length (Solver.all_slices (_stacks s) ≫= masked_slice_data)
          = N_total) as Hlen'.
  { unfold N_total. by rewrite Htotal. }
  destruct (decide (_reg_type s = "TK0")) as [Hreg|Hreg].
  - rewrite N_voxels_of_TK0 by done. rewrite Hb by done.
    eexists. split; [reflexivity|].
    rewrite <- Hlen'.
    rewrite take_app_length, drop_app_length, length_app, length_replicate.
    split; [lia|]. split; [done|]. split; [done|].
    intros Hreg'. by rewrite Hreg in Hreg'.
  - rewrite N_voxels_of_not_TK0 by done. rewrite Hb by lia.
    eexists. split; [reflexivity|].
    rewrite <- Hlen'.
    rewrite take_app_length, drop_app_length, length_app, length_replicate.
    split; [lia|]. split; [done|]. split; [done|]. done.
Qed.

(** C4.  For every stack set in which all slices of a stack have the voxel
    count of that stack's first slice (each stack being the pile of its
    slices), the total computed at construction, the sum over stacks of
    the product of the stack's 3-D size, is the sum over all slices of the
    slice's voxel count.  It is exactly the number of leading entries of
    [b] that [_get_b] fills with per-slice data: the loop stops at
    [i_min = N_total_slice_voxels], the entries before it are the masked
    slices and the entries after it are left at zero.  And it is the row
    count of the data-fit block of the augmented operator, for TK0 and for
    TK1: the assembled operator stores the [N_total_slice_voxels] entries
    of [MA x] in front of the regularisation block. *)
Theorem total_slice_voxel_count (stacks : list (Stack R))
    (HR_volume : Stack R) (alpha_cut alpha : R) (iter_max : Z)
    (reg_type : string) :
  Forall uniform_slices stacks →
  Forall stack_geometry stacks →
  Forall slice_buffer (Solver.all_slices stacks) →
  mask_keeps_length →
  let s := TikhonovSolver.__init__ stacks HR_volume alpha_cut alpha
             iter_max reg_type in
  let N_voxels := TikhonovSolver.N_voxels_of s in
  let N_total := Z.to_nat (_N_total_slice_voxels s) in
  _N_total_slice_voxels s = sum_slice_voxels (Solver.all_slices stacks) ∧
  (∃ b, TikhonovSolver._get_b_loop s N_voxels
        = Ok (b, _N_total_slice_voxels s) ∧
        TikhonovSolver._get_b s N_voxels = Ok b ∧
        take N_total b = Solver.all_slices stacks ≫= masked_slice_data ∧
        length (Solver.all_slices stacks ≫= masked_slice_data) = N_total ∧
        drop N_total b
        = replicate (Z.to_nat (N_voxels - _N_total_slice_voxels s))
            f_zero) ∧
  (reg_type = "TK0" →
     N_voxels = _N_total_slice_voxels s + _N_voxels_HR_volume s ∧
     (0 < _N_voxels_HR_volume s →
      np.slice_len N_voxels (Some 0) (Some (- _N_voxels_HR_volume s))
      = _N_total_slice_voxels s)) ∧
  (reg_type = "TK1" →
     N_voxels = _N_total_slice_voxels s + 3 * _N_voxels_HR_volume s ∧
     (0 < _N_voxels_HR_volume s →
      np.slice_len N_voxels (Some 0)
        (Some (- (3 * _N_voxels_HR_volume s)))
      = _N_total_slice_voxels s)) ∧
  (∀ x : list R,
     reg_type ∈ ["TK0"; "TK1"] →
     operator_shapes s → 0 < _N_voxels_HR_volume s →
     Z.of_nat (length x) = _N_voxels_HR_volume s →
     ∃ A_x, TikhonovSolver.A_fw s N_voxels x = Ok A_x ∧
            (reg_type = "TK0" →
             TikhonovSolver._A_TK0 s x N_voxels alpha = Ok A_x) ∧
            (reg_type = "TK1" →
             TikhonovSolver._A_TK1 s x N_voxels alpha = Ok A_x) ∧
            take N_total A_x = Solver.MA s x ∧
            length (Solver.MA s x) = N_total ∧
            Z.of_nat (length (drop N_total A_x))
            = N_voxels - _N_total_slice_voxels s).
Proof.
  intros Huni Hgeo Hbuf Hmask s N_voxels N_total.
  pose proof (init_constructed stacks HR_volume alpha_cut alpha iter_max
                reg_type) as Hc.
  fold s in Hc.
  pose proof (constructed_total s Hc Hgeo Huni) as Htotal.
  pose proof (sum_slice_voxels_nonneg (Solver.all_slices stacks)) as Hsum.
  pose proof (constructed_HR_nonneg s Hc) as HN.
  pose proof (all_masked_length _ Hmask Hbuf) as Hlen.
  change (_stacks s) with stacks in Htotal.
  assert (length (Solver.all_slices stacks ≫= masked_slice_data) = N_total)
    as Hlen' by (unfold N_total; by rewrite Htotal).
  split; [done|]. split; [|split; [|split]].
  - assert (∃ G, 0 ≤ G ∧ N_voxels = _N_total_slice_voxels s + G)
      as (G & HG & HNv).
    { unfold N_voxels.
      destruct (decide (_reg_type s = "TK0")) as [Hreg|Hreg].
      - rewrite N_voxels_of_TK0 by done. by eexists.
      - rewrite N_voxels_of_not_TK0 by done. eexists. split; [|done]. lia. }
    rewrite HNv.
    pose proof (get_b_loop_result s G Hc Hgeo Huni Hbuf Hmask HG) as Hloop.
    eexists. split; [exact Hloop|].
    split; [unfold TikhonovSolver._get_b; by rewrite Hloop|].
    change (_stacks s) with stacks. rewrite <- Hlen'.
    rewrite take_app_length, drop_app_length.
    split; [done|]. split; [done|]. f_equal. lia.
  - intros Hreg. unfold N_voxels. rewrite N_voxels_of_TK0 by done.
    split; [done|]. intros HN'.
    unfold np.slice_len, np.slice_start, np.slice_stop, np.bound.
    destruct (Z.ltb_spec 0 0); [lia|].
    destruct (Z.ltb_spec (- _N_voxels_HR_volume s) 0); lia.
  - intros Hreg. unfold N_voxels. rewrite N_voxels_of_TK1 by done.
    split; [done|]. intros HN'.
    unfold np.slice_len, np.slice_start, np.slice_stop, np.bound.
    destruct (Z.ltb_spec 0 0); [lia|].
    destruct (Z.ltb_spec (- (3 * _N_voxels_HR_volume s)) 0); lia.
  - intros x Hreg Hop HN' Hx.
    assert (length (Solver.MA s x) = N_total) as HMA.
    { rewrite (MA_length s x Hop) by lia. change (_stacks s) with stacks.
      unfold N_total. by rewrite Htotal. }
    apply elem_of_cons in Hreg as [Hreg|Hreg%list_elem_of_singleton].
    + unfold N_voxels. rewrite N_voxels_of_TK0, A_fw_TK0 by done.
      change (_alpha s) with alpha.
      rewrite A_TK0_stacked by done.
      eexists. split; [done|]. split; [done|].
      split; [intros E; by rewrite Hreg in E|].
      rewrite <- HMA, take_app_length, drop_app_length, scale_l_length.
      split; [done|]. split; [done|]. lia.
    + unfold N_voxels. rewrite N_voxels_of_TK1, A_fw_TK1 by done.
      change (_alpha s) with alpha.
      rewrite A_TK1_stacked by done.
      eexists. split; [done|].
      split; [intros E; by rewrite Hreg in E|]. split; [done|].
      rewrite <- HMA, take_app_length, drop_app_length, scale_l_length.
      split; [done|]. split; [done|]. unfold Solver.D.
      rewrite (grad_length s Hop) by lia. lia.
Qed.
End assembled_system.

(** ** The iteration *)

Section iteration.
Context {R : Type} `{KrylovMethod R}.

(** The loop counts its passes, makes at most [fuel] of them, and reports
    the iteration limit only after all of them. *)
Lemma lsqr_loop_itn (A : LinearOperator R) (fuel : nat) (itn : Z)
    (k : krylov_state) (res : lsqr_result R) :
  scipy.lsqr_loop A fuel itn k = Ok res →
  itn ≤ res_itn res ≤ itn + Z.of_nat fuel ∧
  (res_istop res = iteration_limit_reached →
   res_itn res = itn + Z.of_nat fuel).
Proof.
  revert itn k. induction fuel as [|fuel IH]; intros itn k Hres.
  - simpl in Hres. injection Hres as <-. simpl. lia.
  - simpl in Hres.
    destruct (krylov_step A k) as [k'|e]; simpl in Hres; [|done].
    destruct (krylov_converged k').
    + injection Hres as <-. simpl. split; [lia|done].
    + apply IH in Hres as [Hle Hlimit]. split; [lia|].
      intros Hstop. rewrite Hlimit by done. lia.
Qed.

Lemma lsqr_itn (A : LinearOperator R) (b : list R) (iter_lim : Z)
    (res : lsqr_result R) :
  0 ≤ iter_lim → scipy.lsqr A b iter_lim = Ok res →
  0 ≤ res_itn res ≤ iter_lim ∧
  (res_istop res = iteration_limit_reached → res_itn res = iter_lim).
Proof.
  intros Hlim Hres. unfold scipy.lsqr in Hres.
  destruct (krylov_init A b) as [k|e]; simpl in Hres; [|done].
  apply lsqr_loop_itn in Hres as [Hle Hstop]. split; [lia|].
  intros Hs. rewrite Hstop by done. lia.
Qed.

(** The solve always returns: with a result when no callback raises. *)
Lemma lsqr_loop_returns (A : LinearOperator R) (fuel : nat) (itn : Z)
    (k : krylov_state) :
  (∀ k, is_Ok (krylov_step A k)) →
  is_Ok (scipy.lsqr_loop A fuel itn k).
Proof.
  intros Hstep. revert itn k.
  induction fuel as [|fuel IH]; intros itn k; simpl; [by eexists|].
  destruct (Hstep k) as [k' ->]. simpl.
  destruct (krylov_converged k'); [by eexists|apply IH].
Qed.
End iteration.

(** ** The orchestrator *)

Section orchestrator.
Context {R : Type} `{Float R} `{SliceOperators R}.

(** An unknown type makes the probe of the operator raise: the dictionary
    of operators has no such key. *)
Lemma operator_probe_unknown_type (s : TikhonovSolver R) :
  _reg_type s ∉ ["TK0"; "TK1"] →
  ∃ e, operator_probe s = Raise e ∧
       (0 ≤ _N_voxels_HR_volume s → e = KeyError (_reg_type s)).
Proof.
  intros Hreg. unfold operator_probe, np.zeros.
  destruct (Z.ltb_spec (_N_voxels_HR_volume s) 0) as [Hneg|Hpos].
  - eexists. split; [done|]. lia.
  - cbn [mbind result_bind]. unfold TikhonovSolver.A_fw, TikhonovSolver._A.
    destruct (decide (_reg_type s = "TK0")) as [E|_].
    { exfalso. apply Hreg. rewrite E. by left. }
    destruct (decide (_reg_type s = "TK1")) as [E|_].
    { exfalso. apply Hreg. rewrite E. right. by left. }
    by eexists.
Qed.

(** C5, as the code has it.  A regularisation type other than 'TK0' and
    'TK1' is fatal before any solve attempt: [set_regularization_type]
    reports a [ValueError] and leaves the object as it was, and a run of
    an object that holds such a type (the constructor stores any type)
    raises after the three prints, when the right-hand side or the
    operator is built, without calling the solve and without changing the
    object.  Nothing else is checked: the constructor and the setters
    store any [alpha] and any [iter_max], an empty list of stacks is
    accepted, and with type 'TK0' or 'TK1' [run_reconstruction] has no
    check of its own: whenever the right-hand side assembles and the
    operator accepts the zero vector it calls the solve with
    [iter_lim = iter_max], and the only exceptions of a run are those of
    [_get_b], of that first call of the operator and of the solve. *)
Theorem configuration_checks `{KrylovMethod R} :
  (∀ (w : World R) (reg_type : string),
     reg_type ∉ ["TK0"; "TK1"] →
     ∃ msg, TikhonovSolver.set_regularization_type reg_type w
            = (w, Raise (ValueError msg))) ∧
  (∀ (w : World R) (reg_type : string),
     reg_type ∈ ["TK0"; "TK1"] →
     TikhonovSolver.set_regularization_type reg_type w
     = ({| self := with_reg_type reg_type (self w); log := log w ++ [] |},
        Ok tt)) ∧
  (∀ (w : World R) (alpha : R),
     TikhonovSolver.set_alpha alpha w
     = ({| self := with_alpha alpha (self w); log := log w ++ [] |},
        Ok tt)) ∧
  (∀ (w : World R) (iter_max : Z),
     TikhonovSolver.set_iter_max iter_max w
     = ({| self := with_iter_max iter_max (self w); log := log w ++ [] |},
        Ok tt)) ∧
  (∀ (stacks : list (Stack R)) (HR_volume : Stack R) (alpha_cut alpha : R)
     (iter_max : Z) (reg_type : string),
     let s := TikhonovSolver.__init__ stacks HR_volume alpha_cut alpha
                iter_max reg_type in
     _stacks s = stacks ∧ _alpha s = alpha ∧ _iter_max s = iter_max ∧
     _reg_type s = reg_type) ∧
  (∀ (HR_volume : Stack R) (alpha_cut alpha : R) (iter_max : Z)
     (reg_type : string),
     let s := TikhonovSolver.__init__ [] HR_volume alpha_cut alpha
                iter_max reg_type in
     is_Ok (TikhonovSolver._get_b s (TikhonovSolver.N_voxels_of s))) ∧
  (∀ w : World R,
     _reg_type (self w) ∉ ["TK0"; "TK1"] →
     let w' := (TikhonovSolver.run_reconstruction w).1 in
     (∃ e, (TikhonovSolver.run_reconstruction w).2 = Raise e ∧
           (is_Ok (TikhonovSolver._get_b (self w)
                     (TikhonovSolver.N_voxels_of (self w))) →
            0 ≤ _N_voxels_HR_volume (self w) →
            e = KeyError (_reg_type (self w)))) ∧
     self w' = self w ∧
     log w' = log w ++ printed (self w) ∧
     Forall (λ e, is_call_lsqr e = false) (printed (self w))) ∧
  (∀ (w : World R) (b : list R),
     _reg_type (self w) ∈ ["TK0"; "TK1"] →
     TikhonovSolver._get_b (self w) (TikhonovSolver.N_voxels_of (self w))
     = Ok b →
     is_Ok (operator_probe (self w)) →
     call_lsqr (_iter_max (self w))
     ∈ log (TikhonovSolver.run_reconstruction w).1) ∧
  (∀ (w : World R) (e : exn),
     (TikhonovSolver.run_reconstruction w).2 = Raise e →
     TikhonovSolver._get_b (self w) (TikhonovSolver.N_voxels_of (self w))
     = Raise e ∨
     ∃ b, TikhonovSolver._get_b (self w)
            (TikhonovSolver.N_voxels_of (self w)) = Ok b ∧
          (operator_probe (self w) = Raise e ∨
           is_Ok (operator_probe (self w)) ∧
           scipy.lsqr (assembled_operator (self w)) b (_iter_max (self w))
           = Raise e)).
Proof.
  repeat apply conj.
  - intros w reg_type Hreg. unfold TikhonovSolver.set_regularization_type.
    rewrite bool_decide_eq_true_2 by done. by eexists.
  - intros w reg_type Hreg. unfold TikhonovSolver.set_regularization_type.
    rewrite bool_decide_eq_false_2; [done|]. by intros Hn.
  - done.
  - done.
  - done.
  - intros HR_volume alpha_cut alpha iter_max reg_type s.
    pose proof (constructed_HR_nonneg s (init_constructed _ _ _ _ _ _)).
    unfold TikhonovSolver._get_b, TikhonovSolver._get_b_loop.
    replace (TikhonovSolver.N_voxels_of s)
      with (Z.of_nat (Z.to_nat (TikhonovSolver.N_voxels_of s))).
    + rewrite zeros_Ok. by eexists.
    + unfold TikhonovSolver.N_voxels_of.
      change (_N_total_slice_voxels s) with 0.
      destruct (bool_decide _); lia.
  - intros w Hreg w'. unfold w'. rewrite run_reconstruction_cases.
    cbn zeta.
    destruct (operator_probe_unknown_type (self w) Hreg) as (e & He & Hk).
    assert (Forall (λ e : event R, is_call_lsqr e = false)
              (printed (self w))) as Hprinted
      by (unfold printed; by repeat constructor).
    destruct (TikhonovSolver._get_b _ _) as [b|e'];
      cbn [fst snd self log].
    + rewrite He. cbn [fst snd self log].
      split; [|done]. exists e. split; [done|]. intros _. exact Hk.
    + split; [|done]. exists e'. split; [done|]. by intros [b Hb].
  - intros w b _ Hb [probe Hprobe]. rewrite run_reconstruction_cases.
    cbn zeta. rewrite Hb, Hprobe.
    destruct (scipy.lsqr _ b _); cbn [fst log];
      rewrite !elem_of_app, !elem_of_cons; auto.
  - intros w e. rewrite run_reconstruction_cases. cbn zeta.
    destruct (TikhonovSolver._get_b _ _) as [b|e']; cbn [snd].
    + destruct (operator_probe (self w)) as [probe|e'] eqn:Hp; cbn [snd].
      * destruct (scipy.lsqr _ b _) as [res|e'] eqn:Hl; cbn [snd];
          [done|]. intros [= ->]. right. exists b.
        split; [done|]. right. split; [by eexists|done].
      * intros [= ->]. right. exists b. split; [done|]. by left.
    + intros [= ->]. by left.
Qed.

(** C6.  For every [iter_max > 0], the solve invoked by
    [run_reconstruction] (it is invoked once the right-hand side is
    assembled and the operator has accepted the zero vector) makes at most
    [iter_max] iterations (exactly [iter_max] when it stops at the limit);
    stopping at the limit without convergence is not an error: whatever
    the stopping reason, the iterate it returns is written into the HR
    volume and the run ends normally. *)
Theorem iteration_cap `{KrylovMethod R} (w : World R) (b : list R) :
  0 < _iter_max (self w) →
  TikhonovSolver._get_b (self w) (TikhonovSolver.N_voxels_of (self w))
  = Ok b →
  is_Ok (operator_probe (self w)) →
  match scipy.lsqr (assembled_operator (self w)) b (_iter_max (self w)) with
  | Ok res =>
      0 ≤ res_itn res ≤ _iter_max (self w) ∧
      (res_istop res = iteration_limit_reached →
       res_itn res = _iter_max (self w)) ∧
      (TikhonovSolver.run_reconstruction w).2 = Ok tt ∧
      _HR_volume (self (TikhonovSolver.run_reconstruction w).1)
      = updated_HR_volume (res_x res) (_HR_volume (self w)) ∧
      GetArrayFromImage
        (itk (_HR_volume (self (TikhonovSolver.run_reconstruction w).1)))
      = res_x res
  | Raise e =>
      (krylov_init (assembled_operator (self w)) b = Raise e
       ∨ ∃ k, krylov_step (assembled_operator (self w)) k = Raise e) ∧
      (TikhonovSolver.run_reconstruction w).2 = Raise e
  end.
Proof.
  intros Hmax Hb [probe Hprobe]. rewrite run_reconstruction_cases.
  cbn zeta. rewrite Hb, Hprobe.
  destruct (scipy.lsqr _ b _) as [res|e] eqn:Hl.
  - apply lsqr_itn in Hl as [Hle Hstop]; [|lia]. done.
  - split; [|done]. unfold scipy.lsqr in Hl.
    destruct (krylov_init _ b) as [k|e'] eqn:Hinit; simpl in Hl.
    + right. clear Hinit. revert Hl. generalize 0 as itn. revert k.
      generalize (Z.to_nat (_iter_max (self w))) as fuel.
      induction fuel as [|fuel IH]; intros k itn Hl; simpl in Hl;
        [done|].
      destruct (krylov_step _ k) as [k'|e'] eqn:Hstep; simpl in Hl.
      * destruct (krylov_converged k'); [done|].
        by apply (IH k' (itn + 1)).
      * injection Hl as ->. by exists k.
    + injection Hl as ->. by left.
Qed.
End orchestrator.

Section diagnostics_and_frame.
Context {R : Type} `{Float R} `{SliceOperators R}.

(** C7, as the code has it.  After a run the accessors return the
    regularisation type, [alpha] and the configured maximum number of
    iterations, all as they were before the run.  The iteration count used
    and the final residual norm are not kept: the object after the run
    depends on the result of the solve only through the iterate, so two
    solves that return the same iterate with different diagnostics leave
    the same object. *)
Theorem diagnostics_accessors :
  (∀ (K : KrylovMethod R) (w : World R),
     let s' := self (TikhonovSolver.run_reconstruction w).1 in
     TikhonovSolver.get_regularization_type s' = _reg_type (self w) ∧
     TikhonovSolver.get_alpha s' = _alpha (self w) ∧
     TikhonovSolver.get_iter_max s' = _iter_max (self w)) ∧
  (∀ (K1 K2 : KrylovMethod R) (w : World R) (b : list R)
     (res1 res2 : lsqr_result R),
     TikhonovSolver._get_b (self w) (TikhonovSolver.N_voxels_of (self w))
     = Ok b →
     @scipy.lsqr R K1 (assembled_operator (self w)) b (_iter_max (self w))
     = Ok res1 →
     @scipy.lsqr R K2 (assembled_operator (self w)) b (_iter_max (self w))
     = Ok res2 →
     res_x res1 = res_x res2 →
     self (@TikhonovSolver.run_reconstruction R _ _ K1 w).1
     = self (@TikhonovSolver.run_reconstruction R _ _ K2 w).1).
Proof.
  split.
  - intros K w. rewrite run_reconstruction_cases. cbn zeta.
    destruct (TikhonovSolver._get_b _ _) as [b|e]; [|done].
    destruct (operator_probe (self w)); [|done].
    by destruct (scipy.lsqr _ b _).
  - intros K1 K2 w b res1 res2 Hb H1 H2 Hx.
    rewrite !run_reconstruction_cases. cbn zeta.
    rewrite Hb, H1, H2.
    destruct (operator_probe (self w)); [|done].
    cbn [fst self]. by rewrite Hx.
Qed.

(** C8.  [run_reconstruction] does not modify the stacks or any field of
    the solver other than the HR volume.  The run ends normally exactly
    when the right-hand side assembles, the operator accepts the zero
    vector and the solve returns; then the HR volume is assigned once, at
    the end of the run: its voxels are the solution vector returned by the
    solve on the assembled right-hand side, on the voxel grid of the input
    estimate, and its slices are untouched.  When the run raises, the
    object is as it was and the HR volume has not been assigned. *)
Theorem run_reconstruction_frame `{KrylovMethod R} (w : World R) :
  let s := self w in
  let w' := (TikhonovSolver.run_reconstruction w).1 in
  let s' := self w' in
  _stacks s' = _stacks s ∧
  _N_stacks s' = _N_stacks s ∧
  _alpha_cut s' = _alpha_cut s ∧
  _N_total_slice_voxels s' = _N_total_slice_voxels s ∧
  _N_voxels_HR_volume s' = _N_voxels_HR_volume s ∧
  _differential_operations s' = _differential_operations s ∧
  _alpha s' = _alpha s ∧ _iter_max s' = _iter_max s ∧
  _reg_type s' = _reg_type s ∧
  get_slices (_HR_volume s') = get_slices (_HR_volume s) ∧
  get_number_of_slices (_HR_volume s')
  = get_number_of_slices (_HR_volume s) ∧
  (∀ (b : list R) (res : lsqr_result R),
     TikhonovSolver._get_b s (TikhonovSolver.N_voxels_of s) = Ok b →
     is_Ok (operator_probe s) →
     scipy.lsqr (assembled_operator s) b (_iter_max s) = Ok res →
     (TikhonovSolver.run_reconstruction w).2 = Ok tt) ∧
  match (TikhonovSolver.run_reconstruction w).2 with
  | Ok _ =>
      ∃ (b : list R) (res : lsqr_result R),
        TikhonovSolver._get_b s (TikhonovSolver.N_voxels_of s) = Ok b ∧
        is_Ok (operator_probe s) ∧
        scipy.lsqr (assembled_operator s) b (_iter_max s) = Ok res ∧
        itk (_HR_volume s')
        = {| geometry := geometry (itk (_HR_volume s));
             GetArrayFromImage := res_x res |} ∧
        sitk (_HR_volume s')
        = {| geometry := geometry (itk (_HR_volume s));
             GetArrayFromImage := res_x res |} ∧
        log w' = log w
                 ++ (printed s ++ [call_lsqr (_iter_max s)])
                 ++ [assign_HR_volume_itk; assign_HR_volume_sitk] ∧
        Forall (λ e, is_assignment e = false)
          (printed s ++ [call_lsqr (_iter_max s)])
  | Raise _ =>
      s' = s ∧
      ∃ during,
        log w' = log w ++ during ∧
        Forall (λ e, is_assignment e = false) during
  end.
Proof.
  intros s w' s'. unfold s', w', s.
  rewrite run_reconstruction_cases. cbn zeta.
  destruct (TikhonovSolver._get_b _ _) as [b|e]; cbn [fst snd self log].
  - destruct (operator_probe (self w)) as [probe|e] eqn:Hprobe;
      cbn [fst snd self log].
    + destruct (scipy.lsqr _ b _) as [res|e] eqn:Hl;
        cbn [fst snd self log].
      * do 11 (split; [done|]). split; [done|].
        exists b, res. split; [done|]. split; [by eexists|].
        split; [done|]. split; [done|]. split; [done|].
        split; [by rewrite <- !app_assoc|].
        unfold printed. by repeat constructor.
      * do 11 (split; [done|]).
        split; [intros b' res' [= <-] _ Hl'; by rewrite Hl in Hl'|].
        split; [done|].
        exists (printed (self w) ++ [call_lsqr (_iter_max (self w))]).
        split; [done|]. unfold printed. by repeat constructor.
    + do 11 (split; [done|]).
      split; [by intros b' res' _ [? ?] _|]. split; [done|].
      exists (printed (self w)). split; [done|].
      unfold printed. by repeat constructor.
  - do 11 (split; [done|]). split; [by intros b' res' ?|]. split; [done|].
    exists (printed (self w)). split; [done|].
    unfold printed. by repeat constructor.
Qed.
End diagnostics_and_frame.

(** ** Resampling to the isotropic grid *)

Section resampling.
Context {T I : Type} (astype_int16 : T → I).

Lemma astype_uint8_range (n : Z) : 0 ≤ Registration.astype_uint8 n < 256.
Proof.
  unfold Registration.astype_uint8.
  destruct (_ && _); [apply Z.mod_pos_bound|]; lia.
Qed.

(** A volume without slices has no target slice. *)
Lemma no_slices_no_target (shape : nat * nat * nat) (pixdim : Q * Q * Q) :
  shape.2 = O →
  Registration.number_of_slices_target_through_plane shape pixdim = 0.
Proof.
  intros Hshape.
  unfold Registration.number_of_slices_target_through_plane,
    Registration.true_number_of_slices, Registration.ceil.
  rewrite Hshape.
  assert (inject_Z (Z.of_nat 0) * pixdim.2 / pixdim.1.1 == 0)%Q as ->
    by (unfold Qdiv; simpl; ring).
  reflexivity.
Qed.

Lemma nearest_neighbour_passes (img : Registration.FetalImage) (n : Z)
    (data_target : list (option I)) :
  Registration.nearest_neighbour astype_int16 img n data_target
  = snd <$> for_in (seq 0 (Z.to_nat n))
              (copy_slice astype_int16 (Registration.get_data_shape img)
                 (Registration.get_zooms img) (Registration.get_data img))
              (O, data_target).
Proof. reflexivity. Qed.

Lemma advance_step (shape : nat * nat * nat) (pixdim : Q * Q * Q)
    (j i : nat) :
  (i < shape.2)%nat →
  (advance shape pixdim j i = i ∨ advance shape pixdim j i = S i) ∧
  (advance shape pixdim j i < shape.2)%nat.
Proof.
  intros Hi. unfold advance. destruct (negb _); simpl; [|by auto].
  destruct (Z.ltb_spec (Z.of_nat i) (Z.of_nat shape.2 - 1));
    split; auto; lia.
Qed.

Lemma copy_slice_next (shape : nat * nat * nat) (pixdim : Q * Q * Q)
    (data : list T) (done_ : list (option I)) (m i : nat) (slice_i : T) :
  data !! advance shape pixdim (length done_) i = Some slice_i →
  copy_slice astype_int16 shape pixdim data (length done_)
    (i, done_ ++ replicate (S m) None)
  = Ok (advance shape pixdim (length done_) i,
        (done_ ++ [Some (astype_int16 slice_i)]) ++ replicate m None).
Proof.
  intros Hslice. unfold copy_slice, getitem. rewrite Hslice.
  cbn [mbind result_bind replicate].
  rewrite insert_app_r_alt by lia.
  rewrite Nat.sub_diag. cbn [insert list_insert].
  by rewrite <- app_assoc.
Qed.

(** The loop from target slice [length done_] on: it returns, and what it
    stores are the casts of the source slices at indices that move on by
    at most one per target slice and stay inside the volume. *)
Lemma nearest_neighbour_from (shape : nat * nat * nat) (pixdim : Q * Q * Q)
    (data : list T) (m : nat) :
  (shape.2 ≤ length data)%nat →
  ∀ (i : nat) (done_ : list (option I)),
    (i < shape.2)%nat →
    ∃ i' idx,
      for_in (seq (length done_) m)
        (copy_slice astype_int16 shape pixdim data)
        (i, done_ ++ replicate m None)
      = Ok (i', done_ ++ map (λ i, astype_int16 <$> data !! i) idx) ∧
      length idx = m ∧ Forall (λ i, (i < shape.2)%nat) idx ∧ walks i idx.
Proof.
  intros Hdata. induction m as [|m IH]; intros i done_ Hi.
  { exists i, []. by repeat split. }
  destruct (advance_step shape pixdim (length done_) i Hi) as [Hstep Hi1].
  destruct (data !! advance shape pixdim (length done_) i)
    as [slice_i|] eqn:Hslice.
  2: { apply lookup_ge_None in Hslice. lia. }
  cbn [seq for_in]. rewrite (copy_slice_next _ _ _ _ _ _ slice_i) by done.
  cbn [mbind result_bind].
  destruct (IH (advance shape pixdim (length done_) i)
              (done_ ++ [Some (astype_int16 slice_i)]) Hi1)
    as (i' & idx & Hloop & Hlen & Hlt & Hw).
  rewrite length_app, Nat.add_1_r in Hloop. rewrite Hloop.
  exists i', (advance shape pixdim (length done_) i :: idx).
  split; [|split; [|split]].
  - cbn [map]. by rewrite Hslice, <- app_assoc.
  - simpl. lia.
  - by constructor.
  - done.
Qed.

(** The method returns for every image and every order, with the
    allocated number of slices. *)
Lemma resample_returns (img : Registration.FetalImage) (order : Z) :
  let shape := Registration.get_data_shape img in
  let pixdim := Registration.get_zooms img in
  let n :=
    Registration.number_of_slices_target_through_plane shape pixdim in
  ∃ data_target,
    Registration.resample_to_isotropic_grid astype_int16 img order
    = Ok {| Registration.data_shape := (shape.1.1, shape.1.2, n);
            Registration.zooms := (pixdim.1.1, pixdim.1.1, pixdim.1.1);
            Registration.dataobj := data_target |} ∧
    length data_target = Z.to_nat n.
Proof.
  intros shape pixdim n.
  unfold Registration.resample_to_isotropic_grid.
  fold shape pixdim n.
  destruct (decide (order = 0)) as [_|_].
  2: { eexists. split; [done|]. by rewrite length_replicate. }
  rewrite nearest_neighbour_passes. fold shape pixdim.
  destruct (decide (shape.2 = O)) as [Hnone|Hsome].
  - unfold n. rewrite no_slices_no_target by done.
    by exists [].
  - destruct (nearest_neighbour_from shape pixdim
                (Registration.get_data img) (Z.to_nat n)
                ltac:(done) O []) as (i' & idx & Hloop & Hlen & _);
      [lia|].
    simpl in Hloop. rewrite Hloop.
    exists (map (λ i, astype_int16 <$> Registration.get_data img !! i) idx).
    split; [done|]. by rewrite length_map.
Qed.

(** C9, as the code has it.  For every input image and every order the
    method returns, and the number of target slices is
    [ceil(shape[2]*pixdim[2]/pixdim[0])] cast to an unsigned 8-bit
    integer: the allocated target volume, and the shape saved with it,
    always have fewer than 256 slices.  Whenever the count before the cast
    exceeds 255 the target slice count is not that count: below [2^31] it
    is the count reduced modulo 256, and from [2^31] on it is 0. *)
Theorem target_slice_count_wraps (img : Registration.FetalImage)
    (order : Z) :
  let shape := Registration.get_data_shape img in
  let pixdim := Registration.get_zooms img in
  let true_count := Registration.true_number_of_slices shape pixdim in
  let n :=
    Registration.number_of_slices_target_through_plane shape pixdim in
  true_count
  = Qceiling (inject_Z (Z.of_nat (length (Registration.get_data img)))
              * pixdim.2 / pixdim.1.1) ∧
  0 ≤ n < 256 ∧
  (∃ out,
     Registration.resample_to_isotropic_grid astype_int16 img order
     = Ok out ∧
     Registration.data_shape out = (shape.1.1, shape.1.2, n) ∧
     Z.of_nat (length (Registration.dataobj out)) = n ∧
     (length (Registration.dataobj out) < 256)%nat) ∧
  (255 < true_count → n ≠ true_count) ∧
  (255 < true_count < 2 ^ 31 → n = true_count mod 256) ∧
  (2 ^ 31 ≤ true_count → n = 0) ∧
  (0 ≤ true_count ≤ 255 → n = true_count).
Proof.
  intros shape pixdim true_count n.
  pose proof (astype_uint8_range true_count) as Hrange.
  change (0 ≤ n < 256) in Hrange.
  split; [done|]. split; [done|].
  split; [|split; [|split; [|split]]].
  - destruct (resample_returns img order) as (data_target & Hout & Hlen).
    eexists. split; [exact Hout|].
    cbn [Registration.data_shape Registration.dataobj].
    split; [done|]. rewrite Hlen. fold shape pixdim n. split; lia.
  - lia.
  - intros Hbig. unfold n,
      Registration.number_of_slices_target_through_plane,
      Registration.astype_uint8.
    fold true_count.
    destruct (Z.leb_spec (- 2 ^ 31) true_count); [|lia].
    destruct (Z.ltb_spec true_count (2 ^ 31)); [done|lia].
  - intros Hhuge. unfold n,
      Registration.number_of_slices_target_through_plane,
      Registration.astype_uint8.
    fold true_count.
    destruct (Z.ltb_spec true_count (2 ^ 31)); [lia|].
    by rewrite andb_false_r.
  - intros Hsmall. unfold n,
      Registration.number_of_slices_target_through_plane,
      Registration.astype_uint8.
    fold true_count.
    destruct (Z.leb_spec (- 2 ^ 31) true_count); [|lia].
    destruct (Z.ltb_spec true_count (2 ^ 31)); [|lia].
    apply Z.mod_small. lia.
Qed.
End resampling.

(** ** The registration-type accessors *)

Section accessors.
Import RegistrationSimpleITK.

Lemma module_globals_no_registration_type :
  assoc "registration_type" module_globals = None.
Proof. reflexivity. Qed.

(** C10.  Every call of [get_registration_type] raises a [NameError]: the
    method returns the name [registration_type], which is bound neither in
    the method nor in the module (nor among the builtins), instead of
    [self._registration_type]; it never returns the configured type, even
    though [set_registration_type] stores it. *)
Theorem get_registration_type_raises (builtins : list (string * value))
    (self : object) :
  assoc "registration_type" builtins = None →
  get_registration_type builtins self
  = Raise (NameError "registration_type") ∧
  (∀ v, get_registration_type builtins self
        ≠ Ok v) ∧
  (∀ registration_type self',
     set_registration_type self registration_type = Ok self' →
     _registration_type self' = registration_type ∧
     get_registration_type builtins self'
     = Raise (NameError "registration_type")).
Proof.
  intros Hbuiltins.
  assert (∀ o, get_registration_type builtins o
               = Raise (NameError "registration_type")) as Hraise.
  { intros o. unfold get_registration_type, load_name. simpl f_locals.
    simpl f_globals. simpl f_builtins.
    rewrite module_globals_no_registration_type, Hbuiltins.
    reflexivity. }
  split; [apply Hraise|]. split.
  - intros v. by rewrite Hraise.
  - intros registration_type self' Hset. split; [|apply Hraise].
    unfold set_registration_type in Hset.
    destruct (bool_decide _); [done|]. by injection Hset as <-.
Qed.
End accessors.

(** ** Further properties of the solver *)

Section buffer_lengths.
Context {R : Type} `{Float R} `{SliceOperators R}.

Lemma bound_range (len default : Z) (i : option Z) :
  0 ≤ len → 0 ≤ default ≤ len → 0 ≤ np.bound len default i ≤ len.
Proof.
  intros Hlen Hd. unfold np.bound. destruct i as [i|]; [|done].
  destruct (Z.ltb_spec i 0); lia.
Qed.

(** A slice assignment never resizes the array. *)
Lemma setslice_length (a v a' : list R) (start stop : option Z) :
  np.setslice a start stop v = Ok a' → length a' = length a.
Proof.
  unfold np.setslice, np.slice_len, np.slice_start, np.slice_stop.
  pose proof (bound_range (Z.of_nat (length a)) 0 start) as Hstart.
  pose proof (bound_range (Z.of_nat (length a)) (Z.of_nat (length a)) stop)
    as Hstop.
  set (i := np.bound (Z.of_nat (length a)) 0 start) in *.
  set (j := np.bound (Z.of_nat (length a)) (Z.of_nat (length a)) stop) in *.
  intros Hset.
  destruct (decide (length v = Z.to_nat (Z.max 0 (j - i)))) as [Hv|Hv].
  - injection Hset as <-.
    rewrite !length_app, length_take, length_drop. lia.
  - destruct v as [|r [|r' v]]; try done. injection Hset as <-.
    rewrite !length_app, length_take, length_drop, length_replicate. lia.
Qed.

Lemma zeros_length (n : Z) (a : list R) :
  np.zeros n = Ok a → Z.of_nat (length a) = n.
Proof.
  unfold np.zeros. destruct (Z.ltb_spec n 0); [done|].
  intros [= <-]. rewrite length_replicate. lia.
Qed.

(** What a loop keeps at every pass, it keeps to the end. *)
Lemma for_in_invariant {A S : Type} (P : S → Prop) (l : list A)
    (body : A → S → result S) (s s' : S) :
  (∀ a s s', P s → body a s = Ok s' → P s') →
  P s → for_in l body s = Ok s' → P s'.
Proof.
  intros Hbody. revert s. induction l as [|a l IH]; intros s Hs Hloop.
  - by injection Hloop as <-.
  - simpl in Hloop. destruct (body a s) as [s1|e] eqn:Hs1; [|done].
    apply (IH s1); [by eapply Hbody|done].
Qed.

Lemma get_b_loop_length (s : TikhonovSolver R) (N_voxels : Z)
    (b : list R) (i_min : Z) :
  TikhonovSolver._get_b_loop s N_voxels = Ok (b, i_min) →
  Z.of_nat (length b) = N_voxels.
Proof.
  unfold TikhonovSolver._get_b_loop.
  destruct (np.zeros N_voxels) as [b0|e] eqn:Hzeros; [|done].
  apply zeros_length in Hzeros. cbn [mbind result_bind].
  unfold for_range.
  apply (for_in_invariant
           (λ st : list R * Z, Z.of_nat (length st.1) = N_voxels));
    [|done].
  intros i [b1 i1] [b2 i2] Hb1 Hbody. cbn [fst] in *.
  destruct (getitem (_stacks s) i) as [stack|e]; [|done].
  cbn [mbind result_bind] in Hbody.
  destruct (getitem (get_slices stack) 0) as [slice_0|e]; [|done].
  cbn [mbind result_bind] in Hbody.
  revert Hbody.
  apply (for_in_invariant
           (λ st : list R * Z, Z.of_nat (length st.1) = N_voxels));
    [|done].
  clear. intros j [b1 i1] [b2 i2] Hb1 Hbody. cbn [fst] in *.
  destruct (getitem (get_slices stack) j) as [slice_k|e]; [|done].
  cbn [mbind result_bind] in Hbody.
  destruct (np.setslice b1 _ _ _) as [b3|e] eqn:Hset; [|done].
  injection Hbody as <- _.
  apply setslice_length in Hset. lia.
Qed.

End buffer_lengths.

Section operator_edges.
Context {R : Type} `{Float R} `{SliceOperators R}.



(** The empty slice [a[0:0]] takes no vector of two or more entries. *)
Lemma empty_slice_rejects (a v : list R) :
  (2 ≤ length v)%nat →
  ∃ msg, np.setslice a (Some 0) (Some 0) v = Raise (ValueError msg).
Proof.
  intros Hv. unfold np.setslice, np.slice_len, np.slice_start,
    np.slice_stop, np.bound. simpl.
  replace (Z.to_nat (Z.max 0 (Z.min 0 (Z.of_nat (length a))
                              - Z.min 0 (Z.of_nat (length a)))))
    with O by lia.
  rewrite decide_False by lia.
  destruct v as [|r [|r' v]]; simpl in Hv; try lia.
  by eexists.
Qed.



End operator_edges.

Section rhs_edges.
Context {R : Type} `{Float R} `{SliceOperators R}.

(** The loops of [_get_b] as traversals of the two lists, with no
    assumption on the stacks themselves. *)
Lemma get_b_loop_lists (s : TikhonovSolver R) (N_voxels : Z) :
  _N_stacks s = length (_stacks s) →
  TikhonovSolver._get_b_loop s N_voxels
  = (b ← np.zeros N_voxels;
     for_in (_stacks s)
       (λ stack st,
          slice_0 ← getitem (get_slices stack) 0;
          for_range (get_number_of_slices stack)
            (λ j st, slice_k ← getitem (get_slices stack) j;
                     store_slice
                       (np.prod (np.array
                          (GetSize (geometry (slice_sitk slice_0)))))
                       slice_k st)
            st)
       (b, 0)).
Proof.
  intros HN. unfold TikhonovSolver._get_b_loop.
  destruct (np.zeros N_voxels) as [b|e]; simpl; [|done].
  rewrite HN, <- for_range_getitem. unfold for_range.
  apply for_in_ext. intros i [b' i_min].
  destruct (getitem (_stacks s) i) as [stack|e]; simpl; [|done].
  destruct (getitem (get_slices stack) 0) as [sl0|e]; simpl; [|done].
  apply for_in_ext. intros j [b'' i_min'']. simpl.
  by destruct (getitem (get_slices stack) j).
Qed.




End rhs_edges.
(** ** Further properties of the resampling *)

Section nearest_neighbour_walk.
Context {T I : Type} (astype_int16 : T → I).


(** Voxels that are isotropic already: the test of the loop compares the
    two indices. *)
Lemma advance_isotropic (shape : nat * nat * nat) (pixdim : Q * Q * Q)
    (j i : nat) :
  (pixdim.2 == pixdim.1.1)%Q → ¬ (pixdim.1.1 == 0)%Q →
  advance shape pixdim j i
  = if (Z.of_nat i + 1 <? Z.of_nat j)
       && (Z.of_nat i <? Z.of_nat shape.2 - 1)
    then S i else i.
Proof.
  intros Hiso Hpos. unfold advance.
  assert (inject_Z (Z.of_nat i + 1) * pixdim.2 / pixdim.1.1
          == inject_Z (Z.of_nat i + 1))%Q as ->
    by (rewrite Hiso; by field).
  unfold Qle_bool, inject_Z. cbn [Qnum Qden]. rewrite !Z.mul_1_r.
  by rewrite <- Z.ltb_antisym.
Qed.

Lemma isotropic_count (shape : nat * nat * nat) (pixdim : Q * Q * Q) :
  (pixdim.2 == pixdim.1.1)%Q → ¬ (pixdim.1.1 == 0)%Q →
  (shape.2 < 256)%nat →
  Registration.number_of_slices_target_through_plane shape pixdim
  = Z.of_nat shape.2.
Proof.
  intros Hiso Hpos Hshape.
  unfold Registration.number_of_slices_target_through_plane,
    Registration.true_number_of_slices, Registration.ceil.
  assert (inject_Z (Z.of_nat shape.2) * pixdim.2 / pixdim.1.1
          == inject_Z (Z.of_nat shape.2))%Q as ->
    by (rewrite Hiso; by field).
  rewrite Qceiling_Z. unfold Registration.astype_uint8.
  destruct (Z.leb_spec (- 2 ^ 31) (Z.of_nat shape.2)); [|lia].
  destruct (Z.ltb_spec (Z.of_nat shape.2) (2 ^ 31)); [|lia].
  apply Z.mod_small. lia.
Qed.

(** From the third target slice on, the loop moves on at every pass and
    stays one slice behind. *)
Lemma isotropic_from (shape : nat * nat * nat) (pixdim : Q * Q * Q)
    (data : list T) (m : nat) :
  (pixdim.2 == pixdim.1.1)%Q → ¬ (pixdim.1.1 == 0)%Q →
  shape.2 = length data →
  ∀ (i : nat) (done_ : list (option I)),
    length done_ = S (S i) → (S (S i) + m ≤ length data)%nat →
    for_in (seq (length done_) m)
      (copy_slice astype_int16 shape pixdim data)
      (i, done_ ++ replicate m None)
    = Ok ((i + m)%nat,
          done_ ++ map (λ d, Some (astype_int16 d))
                     (take m (drop (S i) data))).
Proof.
  intros Hiso Hpos Hshape. induction m as [|m IH]; intros i done_ Hlen Hm.
  { cbn [seq for_in replicate take map]. by rewrite Nat.add_0_r. }
  assert (advance shape pixdim (length done_) i = S i) as Hadv.
  { rewrite advance_isotropic, Hlen, Hshape by done.
    destruct (Z.ltb_spec (Z.of_nat i + 1) (Z.of_nat (S (S i)))); [|lia].
    destruct (Z.ltb_spec (Z.of_nat i) (Z.of_nat (length data) - 1));
      [done|lia]. }
  destruct (data !! S i) as [d|] eqn:Hd.
  2: { apply lookup_ge_None in Hd. lia. }
  cbn [seq for_in]. rewrite (copy_slice_next _ _ _ _ _ _ _ d), Hadv
    by (by rewrite Hadv).
  cbn [mbind result_bind].
  pose proof (IH (S i) (done_ ++ [Some (astype_int16 d)])) as IH'.
  rewrite length_app, Nat.add_1_r in IH'.
  rewrite IH' by (simpl; lia).
  rewrite (drop_S _ _ _ Hd). cbn [take map].
  rewrite <- app_assoc. do 2 f_equal. lia.
Qed.

End nearest_neighbour_walk.

(** ** The phantom meets the assumptions *)

Section phantom_facts.
Lemma phantom_shapes (s : TikhonovSolver Z) :
  constructed s → operator_shapes s.
Proof.
  intros (_ & _ & HN). split.
  - intros slice_k x _. apply length_replicate.
  - intros slice_k y_k _. cbn. rewrite length_replicate.
    unfold Phantom.HR_voxels. by rewrite HN.
  - intros slice_k y_k. cbn. destruct (Nat.even _); [done|].
    apply length_map.
  - intros x Hx. cbn. rewrite !length_app, Hx.
    pose proof (prod_nonneg
      (np.array (GetSize (geometry (sitk (_HR_volume s)))))).
    lia.
  - intros g Hg. cbn. rewrite length_take, Hg.
    unfold Phantom.HR_voxels. rewrite HN.
    pose proof (prod_nonneg
      (np.array (GetSize (geometry (sitk (_HR_volume s)))))).
    lia.
Qed.

Lemma phantom_mask : @mask_keeps_length Z Phantom.box_operators.
Proof.
  intros slice_k y_k. cbn. destruct (Nat.even _); [done|].
  apply length_map.
Qed.

Lemma phantom_stack_geometry (y_0 y_1 : list Z) :
  Forall stack_geometry [Phantom.stack y_0 y_1].
Proof.
  repeat constructor.
  exists 2%nat, 1%nat, (Phantom.slice 0 y_0), [Phantom.slice 1 y_1].
  by repeat split.
Qed.

Lemma phantom_uniform_slices (y_0 y_1 : list Z) :
  Forall uniform_slices [Phantom.stack y_0 y_1].
Proof.
  constructor; [|constructor].
  intros first_slice [= <-]. by repeat constructor.
Qed.

Lemma phantom_slice_buffer (a b c d : Z) :
  Forall slice_buffer (Solver.all_slices [Phantom.stack [a; b] [c; d]]).
Proof. by repeat constructor. Qed.
End phantom_facts.

(** ** The statements at the phantom *)

Lemma augmented_forward_operator_phantom :
  TikhonovSolver.A_fw (Phantom.solver 4 1 "TK0") 6 [5; 7]
  = Ok [12; 12; 0; 0; 10; 14] ∧
  TikhonovSolver.A_fw (Phantom.solver 4 1 "TK1") 10 [5; 7]
  = Ok [12; 12; 0; 0; 10; 14; 10; 14; 10; 14].
Proof.
  split.
  - destruct (augmented_forward_operator (Phantom.solver 4 1 "TK0") [5; 7])
      as [HTK0 _].
    + reflexivity.
    + apply phantom_shapes, init_constructed.
    + reflexivity.
    + reflexivity.
    + destruct (HTK0 eq_refl) as (A_x & HA_x & -> & _). exact HA_x.
  - destruct (augmented_forward_operator (Phantom.solver 4 1 "TK1") [5; 7])
      as [_ HTK1].
    + reflexivity.
    + apply phantom_shapes, init_constructed.
    + reflexivity.
    + reflexivity.
    + destruct (HTK1 eq_refl) as (A_x & HA_x & -> & _). exact HA_x.
Defined.

Lemma augmented_adjoint_operator_phantom :
  TikhonovSolver.A_bw (Phantom.solver 4 1 "TK0") [1; 2; 3; 4; 5; 6]
  = Ok [13; 15] ∧
  TikhonovSolver.A_bw (Phantom.solver 4 1 "TK1")
    [1; 2; 3; 4; 5; 6; 7; 8; 9; 10]
  = Ok [13; 15].
Proof.
  split.
  - destruct (augmented_adjoint_operator (Phantom.solver 4 1 "TK0")
                [1; 2; 3; 4; 5; 6]) as (_ & HTK0 & _).
    + reflexivity.
    + apply phantom_shapes, init_constructed.
    + reflexivity.
    + reflexivity.
    + destruct (HTK0 eq_refl) as [_ Hy]. exact Hy.
  - destruct (augmented_adjoint_operator (Phantom.solver 4 1 "TK1")
                [1; 2; 3; 4; 5; 6; 7; 8; 9; 10]) as (_ & _ & HTK1).
    + reflexivity.
    + apply phantom_shapes, init_constructed.
    + reflexivity.
    + reflexivity.
    + destruct (HTK1 eq_refl) as [_ Hy]. exact Hy.
Defined.

Lemma right_hand_side_phantom :
  ∃ b, TikhonovSolver._get_b (Phantom.solver 4 1 "TK1") 10 = Ok b ∧
       take 4 b = [1; 2; 0; 0] ∧ drop 4 b = [0; 0; 0; 0; 0; 0].
Proof.
  destruct (right_hand_side (Phantom.solver 4 1 "TK1"))
    as (b & Hb & _ & Htake & _ & HTK1).
  - apply init_constructed.
  - apply phantom_stack_geometry.
  - apply phantom_uniform_slices.
  - apply phantom_slice_buffer.
  - apply phantom_mask.
  - exists b. split; [exact Hb|]. split; [exact Htake|exact (HTK1 eq_refl)].
Defined.

Lemma total_slice_voxel_count_phantom :
  _N_total_slice_voxels (Phantom.solver 4 1 "TK0") = 4 ∧
  sum_slice_voxels (Solver.all_slices [Phantom.stack [1; 2] [3; 4]]) = 4 ∧
  (∃ b, TikhonovSolver._get_b_loop (Phantom.solver 4 1 "TK0") 6 = Ok (b, 4) ∧
        take 4 b = [1; 2; 0; 0] ∧ drop 4 b = [0; 0]) ∧
  (∃ A_x, TikhonovSolver.A_fw (Phantom.solver 4 1 "TK0") 6 [5; 7] = Ok A_x ∧
          take 4 A_x = [12; 12; 0; 0]).
Proof.
  destruct (total_slice_voxel_count [Phantom.stack [1; 2] [3; 4]]
              Phantom.HR_volume 3 4 1 "TK0")
    as (Htotal & (b & Hloop & _ & Htake & _ & Hdrop) & _ & _ & Hop).
  - apply phantom_uniform_slices.
  - apply phantom_stack_geometry.
  - apply phantom_slice_buffer.
  - apply phantom_mask.
  - split; [reflexivity|]. split; [reflexivity|]. split.
    + exists b. split; [exact Hloop|]. split; [exact Htake|exact Hdrop].
    + destruct (Hop [5; 7]) as (A_x & HA_x & _ & _ & HMA & _).
      * apply elem_of_cons. by left.
      * apply phantom_shapes, init_constructed.
      * reflexivity.
      * reflexivity.
      * exists A_x. split; [exact HA_x|exact HMA].
Defined.

(** A configuration with a negative [alpha], [iter_max = 0] and no slice at
    all: the run reports nothing, calls the solve and assigns the HR
    volume. *)
Lemma invalid_configuration_is_solved :
  let s := Phantom.empty_solver (-1) 0 "TK0" in
  let run := TikhonovSolver.run_reconstruction (Phantom.world s) in
  _alpha s < 0 ∧ _iter_max s ≤ 0 ∧ Solver.all_slices (_stacks s) = [] ∧
  run.2 = Ok tt ∧
  log run.1
  = [ print_text "Chosen regularization type: zero-order Tikhonov";
      print_float "Regularization parameter = " (-1);
      print_int "Maximum number of iterations = " 0;
      call_lsqr 0; assign_HR_volume_itk; assign_HR_volume_sitk ].
Proof. vm_compute. repeat split; congruence. Qed.

Lemma configuration_checks_phantom :
  (∃ msg,
     TikhonovSolver.set_regularization_type "TK2"
       (Phantom.world (Phantom.solver 4 1 "TK0"))
     = (Phantom.world (Phantom.solver 4 1 "TK0"), Raise (ValueError msg))) ∧
  (TikhonovSolver.run_reconstruction
     (Phantom.world (Phantom.solver 4 1 "TK2"))).2
  = Raise (KeyError "TK2") ∧
  call_lsqr 0
  ∈ log (TikhonovSolver.run_reconstruction
           (Phantom.world (Phantom.solver (-1) 0 "TK0"))).1.
Proof.
  destruct (@configuration_checks Z _ _ Phantom.descent)
    as (Hreject & _ & _ & _ & _ & _ & Hfatal & Hsolve & _).
  assert ("TK2" ∉ ["TK0"; "TK1"]) as Hunknown
    by (by intros [[=]|[[=]|[]%elem_of_nil]%elem_of_cons]%elem_of_cons).
  split; [by apply Hreject|]. split.
  - destruct (Hfatal (Phantom.world (Phantom.solver 4 1 "TK2")) Hunknown)
      as ((e & Hrun & He) & _).
    rewrite Hrun, He; [reflexivity| |done].
    exists [1; 2; 0; 0; 0; 0; 0; 0; 0; 0]. reflexivity.
  - apply (Hsolve (Phantom.world (Phantom.solver (-1) 0 "TK0"))
             [1; 2; 0; 0; 0; 0]); [|reflexivity|].
    + apply elem_of_cons. by left.
    + exists [0; 0; 0; 0; 0; 0]. reflexivity.
Defined.

Lemma iteration_cap_phantom :
  let w := Phantom.world (Phantom.solver 4 1 "TK0") in
  ∃ res,
    scipy.lsqr (assembled_operator (self w)) [1; 2; 0; 0; 0; 0] 1 = Ok res ∧
    res_istop res = iteration_limit_reached ∧ res_itn res = 1 ∧
    (TikhonovSolver.run_reconstruction w).2 = Ok tt ∧
    GetArrayFromImage
      (itk (_HR_volume (self (TikhonovSolver.run_reconstruction w).1)))
    = [3; 3].
Proof.
  intros w.
  pose proof (iteration_cap w [1; 2; 0; 0; 0; 0]) as Hcap.
  assert (scipy.lsqr (assembled_operator (self w)) [1; 2; 0; 0; 0; 0]
            (_iter_max (self w))
          = Ok {| res_x := [3; 3]; res_istop := iteration_limit_reached;
                  res_itn := 1; res_r1norm := 3 |}) as Hres
    by reflexivity.
  rewrite Hres in Hcap.
  destruct Hcap as (_ & Hitn & Hrun & _ & Hx);
    [reflexivity|reflexivity|exists [0; 0; 0; 0; 0; 0]; reflexivity|].
  eexists. split; [exact Hres|]. split; [reflexivity|].
  split; [exact (Hitn eq_refl)|]. split; [exact Hrun|exact Hx].
Defined.

(** A run that converges at its first iteration while [iter_max] is 10:
    [get_iter_max] still answers 10, not the count used; and the same run
    with a solve that makes 10 iterations and reports another residual
    leaves the very same object. *)
Lemma iteration_count_not_exposed :
  let s := Phantom.blank_solver 4 10 "TK0" in
  let b := [0; 0; 0; 0; 0; 0] in
  let run1 :=
    @TikhonovSolver.run_reconstruction Z _ _ Phantom.descent
      (Phantom.world s) in
  let run2 :=
    @TikhonovSolver.run_reconstruction Z _ _ restless (Phantom.world s) in
  ∃ res1 res2,
    TikhonovSolver._get_b s (TikhonovSolver.N_voxels_of s) = Ok b ∧
    @scipy.lsqr Z Phantom.descent (assembled_operator s) b (_iter_max s)
    = Ok res1 ∧
    @scipy.lsqr Z restless (assembled_operator s) b (_iter_max s)
    = Ok res2 ∧
    run1.2 = Ok tt ∧ run2.2 = Ok tt ∧
    res_itn res1 = 1 ∧ res_itn res2 = 10 ∧
    res_r1norm res1 = 0 ∧ res_r1norm res2 = 1 ∧
    self run1.1 = self run2.1 ∧
    TikhonovSolver.get_iter_max (self run1.1) = 10 ∧
    TikhonovSolver.get_iter_max (self run1.1) ≠ res_itn res1.
Proof.
  exists {| res_x := [0; 0]; res_istop := converged_to_tolerance;
            res_itn := 1; res_r1norm := 0 |},
         {| res_x := [0; 0]; res_istop := iteration_limit_reached;
            res_itn := 10; res_r1norm := 1 |}.
  vm_compute. repeat split; congruence.
Qed.

Lemma diagnostics_accessors_phantom :
  let w := Phantom.world (Phantom.blank_solver 4 10 "TK0") in
  self (@TikhonovSolver.run_reconstruction Z _ _ Phantom.descent w).1
  = self (@TikhonovSolver.run_reconstruction Z _ _ restless w).1.
Proof.
  intros w.
  destruct (@diagnostics_accessors Z _ _) as [_ Hsame].
  apply (Hsame Phantom.descent restless w [0; 0; 0; 0; 0; 0]
           {| res_x := [0; 0]; res_istop := converged_to_tolerance;
              res_itn := 1; res_r1norm := 0 |}
           {| res_x := [0; 0]; res_istop := iteration_limit_reached;
              res_itn := 10; res_r1norm := 1 |});
    reflexivity.
Defined.

Lemma run_reconstruction_frame_phantom :
  let w := Phantom.world (Phantom.solver 4 1 "TK0") in
  (TikhonovSolver.run_reconstruction w).2 = Ok tt ∧
  _stacks (self (TikhonovSolver.run_reconstruction w).1) = _stacks (self w).
Proof.
  intros w.
  destruct (run_reconstruction_frame w) as (Hstacks & Hrest).
  destruct Hrest as (_ & _ & _ & _ & _ & _ & _ & _ & _ & _ & Hreturns & _).
  split; [|exact Hstacks].
  apply (Hreturns [1; 2; 0; 0; 0; 0]
           {| res_x := [3; 3]; res_istop := iteration_limit_reached;
              res_itn := 1; res_r1norm := 3 |});
    [reflexivity|exists [0; 0; 0; 0; 0; 0]; reflexivity|reflexivity].
Defined.

(** A volume of 129 slices, 16777215 mm apart, with 1 mm voxels in plane:
    the count before the cast is 2164260735, beyond the 32-bit range; it
    reduces to 127 modulo 256, while the cast gives 0 and the saved volume
    has no slice. *)
Lemma target_slice_count_beyond_int32 :
  let img := {| Registration.in_plane := (2%nat, 2%nat);
                Registration.get_zooms := (1%Q, 1%Q, 16777215%Q);
                Registration.get_data := replicate 129 tt |} in
  let shape := Registration.get_data_shape img in
  let pixdim := Registration.get_zooms img in
  let true_count := Registration.true_number_of_slices shape pixdim in
  let n :=
    Registration.number_of_slices_target_through_plane shape pixdim in
  true_count = 2164260735 ∧ 255 < true_count ∧ true_count mod 256 = 127 ∧
  n = 0 ∧ n ≠ true_count mod 256 ∧
  Registration.resample_to_isotropic_grid (λ slice_i : unit, slice_i) img 0
  = Ok {| Registration.data_shape := (2%nat, 2%nat, 0);
          Registration.zooms := (1%Q, 1%Q, 1%Q);
          Registration.dataobj := [] |}.
Proof. vm_compute. repeat split; congruence. Qed.

Lemma target_slice_count_wraps_example :
  let img := {| Registration.in_plane := (2%nat, 2%nat);
                Registration.get_zooms := (1%Q, 1%Q, 3%Q);
                Registration.get_data := replicate 100 tt |} in
  let shape := Registration.get_data_shape img in
  let pixdim := Registration.get_zooms img in
  Registration.true_number_of_slices shape pixdim = 300 ∧
  Registration.number_of_slices_target_through_plane shape pixdim = 44 ∧
  ∃ out,
    Registration.resample_to_isotropic_grid (λ slice_i : unit, slice_i) img 0
    = Ok out ∧
    Registration.data_shape out = (2%nat, 2%nat, 44) ∧
    length (Registration.dataobj out) = 44%nat.
Proof.
  intros img shape pixdim.
  destruct (target_slice_count_wraps (λ slice_i : unit, slice_i) img 0)
    as (_ & _ & (out & Hout & Hshape & Hlen & _) & _ & Hwrap & _).
  split; [reflexivity|]. split.
  - etrans; [apply Hwrap; split; reflexivity|reflexivity].
  - exists out. split; [exact Hout|]. split; [exact Hshape|].
    apply Nat2Z.inj. exact Hlen.
Defined.

Lemma get_registration_type_raises_example :
  RegistrationSimpleITK.get_registration_type some_builtins
    {| RegistrationSimpleITK._registration_type := "Affine";
       RegistrationSimpleITK._initializer_type := None;
       RegistrationSimpleITK._interpolator := "Linear" |}
  = Raise (NameError "registration_type").
Proof.
  apply (get_registration_type_raises some_builtins). reflexivity.
Defined.

(** ** The further properties at the phantom *)










